(** * CerberAuth: a shallow embedding of the license key authentication API

    Source: [src/CerberAuth.py].  The Flask handlers are embedded as
    functions over an explicit world (the two SQLite tables and the
    process-wide [APIStats] counters).  Python exceptions are modelled by an
    outcome type threaded through a small state-and-exception monad; the
    clock, the random generator, the geo lookup and storage failures are
    inputs carried by an environment record. *)

From Stdlib Require Import ZArith QArith List Ascii String Lia Bool.
From stdpp Require Import gmap strings list fin_maps.

Local Open Scope string_scope.
Local Open Scope Z_scope.

(** ** Python values that reach the handlers

    JSON values read from request bodies, and SQLite column values, are
    either [None]/[NULL] or text. *)
Inductive value : Type :=
  | VNone
  | VStr (s : string).

#[global] Instance value_eq_dec : EqDecision value.
Proof. solve_decision. Defined.

(** Python's [a != b] on such values. *)
Definition value_ne (a b : value) : bool := negb (bool_decide (a = b)).

(** ** Characters and strings *)
Module Str.

Definition code (c : ascii) : Z := Z.of_N (N_of_ascii c).

Definition in_range (lo hi c : ascii) : bool :=
  (code lo <=? code c) && (code c <=? code hi).

(** [str.upper()] on ASCII text. *)
Definition upper_char (c : ascii) : ascii :=
  if in_range "a" "z" c then ascii_of_N (N_of_ascii c - 32) else c.

Definition upper (s : list ascii) : list ascii := map upper_char s.

(** [s.split(sep)] for a one-character separator: empty fields are
    kept, and the result is never empty. *)
Fixpoint split (sep : ascii) (s : string) : list string :=
  match s with
  | EmptyString => [EmptyString]
  | String c rest =>
      if Ascii.eqb c sep then EmptyString :: split sep rest
      else match split sep rest with
           | [] => [String c EmptyString]
           | w :: ws => String c w :: ws
           end
  end.

(** [s.startswith(p)]. *)
Definition startswith (p s : string) : bool := String.prefix p s.

(** [s.rstrip(c)] on a list of characters. *)
Fixpoint rstrip (c : ascii) (s : list ascii) : list ascii :=
  match s with
  | [] => []
  | x :: rest =>
      match rstrip c rest with
      | [] => if Ascii.eqb x c then [] else [x]
      | r => x :: r
      end
  end.

End Str.

(** ** [datetime] *)
Record datetime : Type := mkDatetime {
  year : Z; month : Z; day : Z;
  hour : Z; minute : Z; second : Z; microsecond : Z
}.

Definition dt_fields (d : datetime) : list Z :=
  [year d; month d; day d; hour d; minute d; second d; microsecond d].

(** Lexicographic [>] on equally long field lists. *)
Fixpoint lex_gt (a b : list Z) : bool :=
  match a, b with
  | x :: a', y :: b' => (y <? x) || ((x =? y) && lex_gt a' b')
  | _, _ => false
  end.

(** [a > b] on naive datetimes. *)
Definition datetime_gt (a b : datetime) : bool := lex_gt (dt_fields a) (dt_fields b).

Definition is_leap (y : Z) : bool :=
  (y mod 4 =? 0) && (negb (y mod 100 =? 0) || (y mod 400 =? 0)).

Definition days_in_month (y m : Z) : Z :=
  if m =? 2 then (if is_leap y then 29 else 28)
  else if (m =? 4) || (m =? 6) || (m =? 9) || (m =? 11) then 30
  else 31.

(** The check made by the [date(year, month, day)] constructor. *)
Definition valid_date (y m d : Z) : bool :=
  (1 <=? y) && (y <=? 9999) && (1 <=? m) && (m <=? 12) &&
  (1 <=? d) && (d <=? days_in_month y m).

(** ** Texts and code points

    A Python [str] is a sequence of code points; here a text is held as
    the bytes of its UTF-8 encoding.  [Utf8.decode] gives the code points
    back; a byte string that is not UTF-8 stands for no text. *)
Module Utf8.

Definition byte (c : ascii) : Z := Z.of_N (N_of_ascii c).

(** A continuation byte [10xxxxxx]. *)
Definition is_cont (c : ascii) : bool := (128 <=? byte c) && (byte c <? 192).

Definition payload (c : ascii) : Z := byte c - 128.

Fixpoint decode (s : list ascii) : option (list Z) :=
  match s with
  | [] => Some []
  | c0 :: rest =>
      if byte c0 <? 128 then
        cons (byte c0) <$> decode rest
      else if (192 <=? byte c0) && (byte c0 <? 224) then
        match rest with
        | c1 :: rest' =>
            let cp := (byte c0 - 192) * 64 + payload c1 in
            if is_cont c1 && (128 <=? cp) then cons cp <$> decode rest' else None
        | _ => None
        end
      else if (224 <=? byte c0) && (byte c0 <? 240) then
        match rest with
        | c1 :: c2 :: rest' =>
            let cp := (byte c0 - 224) * 4096 + payload c1 * 64 + payload c2 in
            if is_cont c1 && is_cont c2 && (2048 <=? cp)
            then cons cp <$> decode rest' else None
        | _ => None
        end
      else if (240 <=? byte c0) && (byte c0 <? 248) then
        match rest with
        | c1 :: c2 :: c3 :: rest' =>
            let cp := (byte c0 - 240) * 262144 + payload c1 * 4096
                      + payload c2 * 64 + payload c3 in
            if is_cont c1 && is_cont c2 && is_cont c3
               && (65536 <=? cp) && (cp <=? 1114111)
            then cons cp <$> decode rest' else None
        | _ => None
        end
      else None
  end.

End Utf8.

(** ** [datetime.strptime(s, "%Y-%m-%d")]

    The standard library compiles the format into the regular expression

      (?P<Y>\d\d\d\d)-(?P<m>1[0-2]|0[1-9]|[1-9])-(?P<d>3[0-1]|[1-2]\d|0[1-9]|[1-9]| [1-9])

    matches it at the start of the string, rejects the input when text is
    left over, converts the three groups with [int], and then builds the
    date, which rejects impossible calendar dates.  Each directive below
    returns its candidate matches in the order the backtracking matcher
    tries them.

    [\d] and [int] take every Unicode decimal digit.  Which code points
    beyond ASCII are decimal digits, and their values, is a table of the
    interpreter's Unicode database: the argument [u]. *)
Module Strptime.

Definition ord (c : ascii) : Z := Z.of_N (N_of_ascii c).

(** The value of a code point as a decimal digit. *)
Definition digit_value (u : Z -> option Z) (cp : Z) : option Z :=
  if cp <? 128 then
    if (48 <=? cp) && (cp <=? 57) then Some (cp - 48) else None
  else u cp.

(** A code point in the ASCII range [lo-hi]. *)
Definition in_range (lo hi : ascii) (cp : Z) : bool :=
  (ord lo <=? cp) && (cp <=? ord hi).

Definition cands : Type := list (Z * list Z).

Definition dir_Y (u : Z -> option Z) (s : list Z) : cands :=
  match s with
  | a :: b :: c :: d :: rest =>
      match digit_value u a, digit_value u b, digit_value u c, digit_value u d with
      | Some va, Some vb, Some vc, Some vd =>
          [(1000 * va + 100 * vb + 10 * vc + vd, rest)]
      | _, _, _, _ => []
      end
  | _ => []
  end.

Definition lit (ch : ascii) (s : list Z) : list (list Z) :=
  match s with
  | c :: rest => if c =? ord ch then [rest] else []
  | [] => []
  end.

(** Two characters [a b] with [a] in [a_lo-a_hi] and [b] in [b_lo-b_hi]. *)
Definition two (a_lo a_hi b_lo b_hi : ascii) (s : list Z) : cands :=
  match s with
  | a :: b :: rest =>
      if in_range a_lo a_hi a && in_range b_lo b_hi b
      then [(10 * (a - 48) + (b - 48), rest)] else []
  | _ => []
  end.

(** A character in [a_lo-a_hi] followed by [\d]. *)
Definition range_digit (u : Z -> option Z) (a_lo a_hi : ascii) (s : list Z) : cands :=
  match s with
  | a :: b :: rest =>
      match digit_value u b with
      | Some vb => if in_range a_lo a_hi a then [(10 * (a - 48) + vb, rest)] else []
      | None => []
      end
  | _ => []
  end.

Definition one (lo hi : ascii) (s : list Z) : cands :=
  match s with
  | a :: rest => if in_range lo hi a then [(a - 48, rest)] else []
  | [] => []
  end.

Definition space_one (s : list Z) : cands :=
  match s with
  | sp :: a :: rest =>
      if (sp =? ord " ") && in_range "1" "9" a then [(a - 48, rest)] else []
  | _ => []
  end.

Definition dir_m (s : list Z) : cands :=
  (two "1" "1" "0" "2" s ++ two "0" "0" "1" "9" s ++ one "1" "9" s)%list.

Definition dir_d (u : Z -> option Z) (s : list Z) : cands :=
  (two "3" "3" "0" "1" s ++ range_digit u "1" "2" s ++ two "0" "0" "1" "9" s
   ++ one "1" "9" s ++ space_one s)%list.

(** All matches of the whole pattern, first one first. *)
Definition matches (u : Z -> option Z) (s : list Z) : list (Z * Z * Z * list Z) :=
  '(y, s1) ← dir_Y u s;
  s2 ← lit "-" s1;
  '(m, s3) ← dir_m s2;
  s4 ← lit "-" s3;
  '(d, s5) ← dir_d u s4;
  [(y, m, d, s5)].

Definition strptime (u : Z -> option Z) (s : string) : option datetime :=
  match Utf8.decode (list_ascii_of_string s) with
  | Some cps =>
      match matches u cps with
      | (y, m, d, []) :: _ =>
          if valid_date y m d then Some (mkDatetime y m d 0 0 0 0) else None
      | _ => None
      end
  | None => None
  end.

End Strptime.

(** ** [is_expired] *)
Definition is_expired (u : Z -> option Z) (now : datetime) (expires_at : string) : bool :=
  match Strptime.strptime u expires_at with
  | Some expiry_date => datetime_gt now expiry_date
  | None => true
  end.

(** ** URL-safe base64 and [secrets.token_urlsafe] *)
Module Base64.

Definition urlsafe_alphabet : list ascii :=
  list_ascii_of_string
    "ABCDEFGHIJKLMNOPQRSTUVWXYZabcdefghijklmnopqrstuvwxyz0123456789-_".

(** The character of a six-bit group. *)
Definition sextet (n : N) : ascii := nth (N.to_nat n) urlsafe_alphabet "="%char.

(** [base64.urlsafe_b64encode]: three bytes give four characters; a
    last group of one or two bytes is padded with [=]. *)
Fixpoint urlsafe_b64encode (bs : list Byte.byte) : list ascii :=
  match bs with
  | [] => []
  | [a] =>
      let x := Byte.to_N a in
      [sextet (x / 4); sextet (x mod 4 * 16); "="%char; "="%char]
  | [a; b] =>
      let x := Byte.to_N a in
      let y := Byte.to_N b in
      [sextet (x / 4); sextet (x mod 4 * 16 + y / 16); sextet (y mod 16 * 4); "="%char]
  | a :: b :: c :: rest =>
      let x := Byte.to_N a in
      let y := Byte.to_N b in
      let z := Byte.to_N c in
      sextet (x / 4) :: sextet (x mod 4 * 16 + y / 16)
        :: sextet (y mod 16 * 4 + z / 64) :: sextet (z mod 64)
        :: urlsafe_b64encode rest
  end%N.

End Base64.

(** [secrets.token_bytes(n)]: the next [n] bytes of the operating system's
    random source, here an arbitrary sequence of bytes. *)
Definition token_bytes (rand : nat -> Byte.byte) (nbytes : nat) : list Byte.byte :=
  map rand (seq 0 nbytes).

(** [secrets.token_urlsafe(n)]:
    [base64.urlsafe_b64encode(token_bytes(n)).rstrip(b'=').decode('ascii')]. *)
Definition token_urlsafe (rand : nat -> Byte.byte) (nbytes : nat) : list ascii :=
  Str.rstrip "=" (Base64.urlsafe_b64encode (token_bytes rand nbytes)).

(** ** [generate_license_key] *)
Definition generate_license_key (rand : nat -> Byte.byte) : string :=
  "LIC-" ++ string_of_list_ascii (Str.upper (token_urlsafe rand 16)).

(** ** Stored data

    A row of [licenses] (the primary key is the key of the map; the
    [created_at] column is filled by its default and never read) and a row
    of [usage_logs] (the autoincrement [id] is the position in the list). *)
Record License : Type := mkLicense {
  lic_hwid : value;
  lic_expires_at : string;
  lic_plan : value
}.

Record UsageLog : Type := mkUsageLog {
  log_license_key : value;
  log_ip_address : string;
  log_user_agent : string;
  log_hwid : value;
  log_timestamp : string;
  log_geo_country : string
}.

(** [APIStats] without its lock, its start time and [active_licenses],
    which no method updates. *)
Record APIStats : Type := mkStats {
  request_count : Z;
  verify_requests : Z;
  admin_requests : Z;
  error_count : Z
}.

Definition fresh_stats : APIStats := mkStats 0 0 0 0.

Record World : Type := mkWorld {
  licenses : gmap string License;
  usage_logs : list UsageLog;
  stats : APIStats
}.

Definition set_licenses (f : gmap string License -> gmap string License) (w : World) : World :=
  mkWorld (f (licenses w)) (usage_logs w) (stats w).

Definition set_usage_logs (f : list UsageLog -> list UsageLog) (w : World) : World :=
  mkWorld (licenses w) (f (usage_logs w)) (stats w).

Definition set_stats (f : APIStats -> APIStats) (w : World) : World :=
  mkWorld (licenses w) (usage_logs w) (f (stats w)).

(** ** Requests and the environment of one request *)
Inductive outcome (A : Type) : Type :=
  | Return (a : A)
  | Raise.
Arguments Return {A} a.
Arguments Raise {A}.

Record Request : Type := mkRequest {
  (** [request.headers.get('Authorization')] *)
  authorization : option string;
  (** [request.get_json()]: raises, or gives [None] or a dict *)
  json : outcome (option (gmap string value));
  (** [request.args.get('key')] *)
  arg_key : option string;
  (** [request.environ.get('HTTP_X_FORWARDED_FOR', request.remote_addr)] *)
  client_ip : string;
  (** [request.headers.get('User-Agent', 'Unknown')] *)
  user_agent : string
}.

(** The database statements a handler issues; each may fail with a
    storage error ([sqlite3.OperationalError] and the like). *)
Inductive DbOp : Type :=
  | OpGetLicense | OpBindHwid | OpLogUsage | OpAddLicense
  | OpDeleteLicense | OpResetHwid | OpGetUsageInfo.

Record Env : Type := mkEnv {
  (** the module-level [admin_key] *)
  admin_key : string;
  (** [datetime.now()] *)
  now : datetime;
  (** SQLite's [CURRENT_TIMESTAMP] *)
  current_timestamp : string;
  (** the random source behind [secrets] *)
  rand : nat -> Byte.byte;
  (** [GeoLocation.get_country], which never raises *)
  get_country : string -> string;
  (** whether a statement raises for this request *)
  db_raises : DbOp -> bool;
  (** the decimal digits beyond ASCII of the interpreter's Unicode
      database, with their values *)
  nd_digit : Z -> option Z
}.

(** ** Handlers: state and exceptions *)
Definition Handler (A : Type) : Type := World -> outcome A * World.

Definition ret {A} (a : A) : Handler A := fun w => (Return a, w).

Definition raise {A} : Handler A := fun w => (Raise, w).

Definition bind {A B} (m : Handler A) (k : A -> Handler B) : Handler B :=
  fun w =>
    match m w with
    | (Return a, w') => k a w'
    | (Raise, w') => (Raise, w')
    end.

(** [try: body  except Exception: handler] *)
Definition try_except {A} (body handler : Handler A) : Handler A :=
  fun w =>
    match body w with
    | (Return a, w') => (Return a, w')
    | (Raise, w') => handler w'
    end.

Declare Scope handler_scope.
Delimit Scope handler_scope with handler.
Notation "x <- m ;; k" := (bind m (fun x => k))
  (at level 100, m at next level, right associativity) : handler_scope.
Notation "m ;;; k" := (bind m (fun _ => k))
  (at level 100, right associativity) : handler_scope.
Local Open Scope handler_scope.

Definition lift_outcome {A} (o : outcome A) : Handler A := fun w => (o, w).

(** ** [APIStats] methods *)
Definition increment_request (endpoint_type : string) : Handler unit :=
  fun w =>
    (Return tt,
     set_stats (fun s =>
       mkStats (request_count s + 1)
               (if String.eqb endpoint_type "verify" then verify_requests s + 1
                else verify_requests s)
               (if String.eqb endpoint_type "verify" then admin_requests s
                else if String.eqb endpoint_type "admin" then admin_requests s + 1
                else admin_requests s)
               (error_count s)) w).

Definition increment_error : Handler unit :=
  fun w =>
    (Return tt,
     set_stats (fun s =>
       mkStats (request_count s) (verify_requests s) (admin_requests s)
               (error_count s + 1)) w).

(** [get_stats]: the counters and the success rate in percent, as the
    exact quotient that the source then prints with one decimal.  The
    uptime is left out. *)
Record Stats : Type := mkSnapshot {
  total_requests : Z;
  snap_verify_requests : Z;
  snap_admin_requests : Z;
  snap_error_count : Z;
  success_rate : Q
}.

Definition get_stats (s : APIStats) : Stats :=
  mkSnapshot (request_count s) (verify_requests s) (admin_requests s) (error_count s)
    ((inject_Z (request_count s - error_count s)
        / inject_Z (Z.max (request_count s) 1) * inject_Z 100)%Q).

(** The aggregate row of [get_usage_info]. *)
Record UsageInfo : Type := mkUsageInfo {
  info_ip : string;
  info_user_agent : string;
  info_hwid : value;
  info_geo_country : string;
  first_login : string;
  last_login : string;
  login_count : Z
}.

Definition str_min (a b : string) : string := if String.leb a b then a else b.
Definition str_max (a b : string) : string := if String.leb a b then b else a.

(** The row that gives the plain columns of an aggregate query with
    [MIN] and [MAX]: SQLite reloads them at each row where the last
    min/max aggregate of the select list, here [MAX(timestamp)], takes a
    new value, so they come from the first row in [id] order that holds
    the greatest timestamp. *)
Definition max_row (r : UsageLog) (rs : list UsageLog) : UsageLog :=
  fold_left
    (fun best x => if String.ltb (log_timestamp best) (log_timestamp x) then x else best)
    rs r.

(** ** [LicenseDB] methods *)
Module LicenseDB.

Definition db_guard (e : Env) (op : DbOp) : Handler unit :=
  fun w => if db_raises e op then (Raise, w) else (Return tt, w).

(** [WHERE key = ?] selects no row when the parameter is [NULL]. *)
Definition row_of (key : value) (t : gmap string License) : option License :=
  match key with
  | VStr k => t !! k
  | VNone => None
  end.

Definition add_license (e : Env) (key : string) (hwid : value) (expires_at : string)
    (plan : value) : Handler bool :=
  db_guard e OpAddLicense ;;;
  fun w =>
    match licenses w !! key with
    | Some _ => (Return false, w)      (* sqlite3.IntegrityError *)
    | None =>
        (Return true, set_licenses (insert key (mkLicense hwid expires_at plan)) w)
    end.

Definition get_license (e : Env) (key : value) : Handler (option License) :=
  db_guard e OpGetLicense ;;;
  fun w => (Return (row_of key (licenses w)), w).

(** [DELETE FROM licenses WHERE key = ?].  The source never issues
    [PRAGMA foreign_keys = ON], so the foreign key declared on
    [usage_logs] is not enforced and the usage rows are not touched. *)
Definition delete_row (key : value) (t : gmap string License) : gmap string License :=
  match key with
  | VStr k => delete k t
  | VNone => t
  end.

Definition delete_license (e : Env) (key : value) : Handler bool :=
  db_guard e OpDeleteLicense ;;;
  fun w =>
    (Return (bool_decide (is_Some (row_of key (licenses w)))),
     set_licenses (delete_row key) w).

(** [UPDATE licenses SET hwid = ? WHERE key = ?] *)
Definition update_hwid (key : value) (hwid : value) (t : gmap string License)
    : gmap string License :=
  match key with
  | VStr k => alter (fun l => mkLicense hwid (lic_expires_at l) (lic_plan l)) k t
  | VNone => t
  end.

Definition reset_hwid (e : Env) (key : value) : Handler bool :=
  db_guard e OpResetHwid ;;;
  fun w =>
    (Return (bool_decide (is_Some (row_of key (licenses w)))),
     set_licenses (update_hwid key VNone) w).

Definition log_usage (e : Env) (license_key : value) (ip user_agent : string)
    (hwid : value) (geo_country : string) : Handler unit :=
  db_guard e OpLogUsage ;;;
  fun w =>
    (Return tt,
     set_usage_logs
       (fun l => (l ++ [mkUsageLog license_key ip user_agent hwid
                          (current_timestamp e) geo_country])%list) w).

(** [SELECT ..., MIN(timestamp), MAX(timestamp), COUNT( * ) ... WHERE
    license_key = ? GROUP BY license_key]: no row when no log matches.
    The four plain columns come from the row kept by [max_row]. *)
Definition get_usage_info (e : Env) (license_key : string)
    : Handler (option UsageInfo) :=
  db_guard e OpGetUsageInfo ;;;
  fun w =>
    match filter (fun r => log_license_key r = VStr license_key) (usage_logs w) with
    | [] => (Return None, w)
    | r :: rs =>
        (Return (Some (mkUsageInfo (log_ip_address (max_row r rs))
                         (log_user_agent (max_row r rs)) (log_hwid (max_row r rs))
                         (log_geo_country (max_row r rs))
                         (fold_left str_min (map log_timestamp rs) (log_timestamp r))
                         (fold_left str_max (map log_timestamp rs) (log_timestamp r))
                         (Z.of_nat (length (r :: rs))))), w)
    end.

End LicenseDB.

(** ** Responses *)
Inductive Payload : Type :=
  | PError (msg : string)                         (* {"error": msg} *)
  | PValid (expires_at : string) (plan : value)   (* {"valid": True, ...} *)
  | PGenerated (key expires_at : string)          (* {"key": ..., "expires_at": ...} *)
  | PMessage (msg : string)                       (* {"message": msg} *)
  | PHwid (hwid : value)                          (* {"hwid": None} *)
  | PUsage (info : UsageInfo).

Record Response : Type := mkResponse { status : Z; payload : Payload }.

Definition error (code : Z) (msg : string) : Response := mkResponse code (PError msg).

(** Python dict helpers: [k in d], [d[k]] after a membership test, and
    truthiness of [request.get_json()]. *)
Definition contains (d : gmap string value) (k : string) : bool :=
  bool_decide (is_Some (d !! k)).

Definition subscript (d : gmap string value) (k : string) : outcome value :=
  match d !! k with
  | Some v => Return v
  | None => Raise                                 (* KeyError *)
  end.

Definition falsy (data : option (gmap string value)) : bool :=
  match data with
  | None => true
  | Some d => bool_decide (d = ∅)
  end.

(** ** [require_admin_key] *)
Definition require_admin_key (e : Env) (req : Request) (f : Handler Response)
    : Handler Response :=
  let auth_header := default "" (authorization req) in
  if negb (Str.startswith "Bearer " auth_header) then
    increment_error ;;;
    ret (error 401 "Missing or invalid authorization header")
  else
    match Str.split " " auth_header with
    | _ :: token :: _ =>
        if negb (String.eqb token (admin_key e)) then
          increment_error ;;;
          ret (error 401 "Invalid admin key")
        else
          increment_request "admin" ;;;
          f
    | _ => raise                                  (* IndexError *)
    end.

(** ** [verify_license] *)

(** The tail of the handler after the binding check: log, count, answer. *)
Definition verify_success (e : Env) (req : Request) (license_key hwid : value)
    (license_info : License) : Handler Response :=
  let ip := client_ip req in
  let user_agent := user_agent req in
  let geo_country := get_country e ip in
  LicenseDB.log_usage e license_key ip user_agent hwid geo_country ;;;
  increment_request "verify" ;;;
  ret (mkResponse 200 (PValid (lic_expires_at license_info) (lic_plan license_info))).

(** The handler from the binding check on, given the row that was read. *)
Definition verify_bind (e : Env) (req : Request) (license_key hwid : value)
    (license_info : License) : Handler Response :=
  match lic_hwid license_info with
  | VNone =>
      LicenseDB.db_guard e OpBindHwid ;;;
      (fun w => (Return tt, set_licenses (LicenseDB.update_hwid license_key hwid) w)) ;;;
      verify_success e req license_key hwid license_info
  | stored =>
      if value_ne stored hwid then
        increment_error ;;;
        ret (error 403 "HWID mismatch")
      else verify_success e req license_key hwid license_info
  end.

Definition verify_body (e : Env) (req : Request) : Handler Response :=
  data <- lift_outcome (json req) ;;
  match data with
  | Some d =>
      if falsy data || negb (contains d "key") || negb (contains d "hwid") then
        increment_error ;;;
        ret (error 400 "Missing required fields")
      else
        license_key <- lift_outcome (subscript d "key") ;;
        hwid <- lift_outcome (subscript d "hwid") ;;
        license_info <- LicenseDB.get_license e license_key ;;
        match license_info with
        | None =>
            increment_error ;;;
            ret (error 401 "Key not found")
        | Some license_info =>
            if is_expired (nd_digit e) (now e) (lic_expires_at license_info) then
              increment_error ;;;
              ret (error 410 "License expired")
            else verify_bind e req license_key hwid license_info
        end
  | None =>
      increment_error ;;;
      ret (error 400 "Missing required fields")
  end.

Definition internal_error : Handler Response :=
  increment_error ;;;
  ret (error 500 "Internal server error").

Definition verify_license (e : Env) (req : Request) : Handler Response :=
  try_except (verify_body e req) internal_error.

(** ** [generate_license] *)
Definition generate_body (e : Env) (req : Request) : Handler Response :=
  data <- lift_outcome (json req) ;;
  match data with
  | Some d =>
      if falsy data || negb (contains d "expires_at") || negb (contains d "hwid") then
        increment_error ;;;
        ret (error 400 "Missing required fields")
      else
        expires_at <- lift_outcome (subscript d "expires_at") ;;
        match expires_at with
        | VNone => raise                            (* TypeError from strptime *)
        | VStr expires_at =>
            match Strptime.strptime (nd_digit e) expires_at with
            | None =>                               (* ValueError *)
                increment_error ;;;
                ret (error 400 "Invalid date format. Use YYYY-MM-DD")
            | Some _ =>
                let license_key := generate_license_key (rand e) in
                let plan := default (VStr "basic") (d !! "plan") in
                hwid <- lift_outcome (subscript d "hwid") ;;
                added <- LicenseDB.add_license e license_key hwid expires_at plan ;;
                if (added : bool) then
                  ret (mkResponse 200 (PGenerated license_key expires_at))
                else
                  increment_error ;;;
                  ret (error 500 "Failed to generate license")
            end
        end
  | None =>
      increment_error ;;;
      ret (error 400 "Missing required fields")
  end.

Definition generate_license (e : Env) (req : Request) : Handler Response :=
  require_admin_key e req (try_except (generate_body e req) internal_error).

(** ** [delete_license] and [reset_hwid] *)
Definition delete_body (e : Env) (req : Request) : Handler Response :=
  data <- lift_outcome (json req) ;;
  match data with
  | Some d =>
      if falsy data || negb (contains d "key") then
        increment_error ;;;
        ret (error 400 "Missing license key")
      else
        key <- lift_outcome (subscript d "key") ;;
        deleted <- LicenseDB.delete_license e key ;;
        if (deleted : bool) then
          ret (mkResponse 200 (PMessage "successfully deleted"))
        else
          increment_error ;;;
          ret (error 404 "License key not found")
  | None =>
      increment_error ;;;
      ret (error 400 "Missing license key")
  end.

Definition delete_license (e : Env) (req : Request) : Handler Response :=
  require_admin_key e req (try_except (delete_body e req) internal_error).

Definition reset_body (e : Env) (req : Request) : Handler Response :=
  data <- lift_outcome (json req) ;;
  match data with
  | Some d =>
      if falsy data || negb (contains d "key") then
        increment_error ;;;
        ret (error 400 "Missing license key")
      else
        key <- lift_outcome (subscript d "key") ;;
        updated <- LicenseDB.reset_hwid e key ;;
        if (updated : bool) then
          ret (mkResponse 200 (PHwid VNone))
        else
          increment_error ;;;
          ret (error 404 "License key not found")
  | None =>
      increment_error ;;;
      ret (error 400 "Missing license key")
  end.

Definition reset_hwid (e : Env) (req : Request) : Handler Response :=
  require_admin_key e req (try_except (reset_body e req) internal_error).

(** ** [get_key_info] *)
Definition key_info_body (e : Env) (req : Request) : Handler Response :=
  match arg_key req with
  | None | Some "" =>
      increment_error ;;;
      ret (error 400 "Missing license key parameter")
  | Some license_key =>
      usage_info <- LicenseDB.get_usage_info e license_key ;;
      match usage_info with
      | None => ret (mkResponse 200 (PMessage "no key info"))
      | Some info => ret (mkResponse 200 (PUsage info))
      end
  end.

Definition get_key_info (e : Env) (req : Request) : Handler Response :=
  require_admin_key e req (try_except (key_info_body e req) internal_error).

(** ** Concurrent dispatch of [verify_license]

    Flask serves each request on its own thread and every database call
    opens its own connection, so the statements of two requests may
    interleave.  The handler is cut at the only point the binding race
    needs: [verify_read] runs the handler up to and including the expiry
    check on the row it has read, and [verify_resume] runs it from the
    binding check on, with that row. *)
Definition Snapshot : Type := (value * value * License)%type.

Definition verify_read (e : Env) (req : Request) : Handler (Response + Snapshot) :=
  try_except
    (data <- lift_outcome (json req) ;;
     match data with
     | Some d =>
         if falsy data || negb (contains d "key") || negb (contains d "hwid") then
           increment_error ;;;
           ret (inl (error 400 "Missing required fields"))
         else
           license_key <- lift_outcome (subscript d "key") ;;
           hwid <- lift_outcome (subscript d "hwid") ;;
           license_info <- LicenseDB.get_license e license_key ;;
           match license_info with
           | None =>
               increment_error ;;;
               ret (inl (error 401 "Key not found"))
           | Some license_info =>
               if is_expired (nd_digit e) (now e) (lic_expires_at license_info) then
                 increment_error ;;;
                 ret (inl (error 410 "License expired"))
               else ret (inr (license_key, hwid, license_info))
           end
     | None =>
         increment_error ;;;
         ret (inl (error 400 "Missing required fields"))
     end)
    (increment_error ;;;
     ret (inl (error 500 "Internal server error"))).

Definition verify_resume (e : Env) (req : Request) (s : Snapshot) : Handler Response :=
  let '(license_key, hwid, license_info) := s in
  try_except (verify_bind e req license_key hwid license_info) internal_error.

(** One request run without interruption. *)
Definition verify_sequential (e : Env) (req : Request) : Handler Response :=
  fun w =>
    match verify_read e req w with
    | (Return (inl r), w') => (Return r, w')
    | (Return (inr s), w') => verify_resume e req s w'
    | (Raise, w') => (Raise, w')
    end.

(** Two requests whose reads both happen before either resumes.  The
    result lists both responses and the license table after each
    resumption. *)
Definition verify_interleaved (e1 : Env) (req1 : Request) (e2 : Env) (req2 : Request)
    (w : World)
    : option (outcome Response * gmap string License
              * outcome Response * gmap string License) :=
  match verify_read e1 req1 w with
  | (Return (inr s1), wa) =>
      match verify_read e2 req2 wa with
      | (Return (inr s2), wb) =>
          let '(r1, wc) := verify_resume e1 req1 s1 wb in
          let '(r2, wd) := verify_resume e2 req2 s2 wc in
          Some (r1, licenses wc, r2, licenses wd)
      | _ => None
      end
  | _ => None
  end.

(** ** Notions used in the statements *)

(** A verify request with a JSON body carrying [key] and [hwid]. *)
Definition VerifyRequest (req : Request) (key hwid : value) : Prop :=
  exists d, json req = Return (Some d) /\ d !! "key" = Some key /\ d !! "hwid" = Some hwid.

(** The bearer credential of a request, as [require_admin_key] extracts
    it: the second space-separated field of an [Authorization] header
    that starts with ["Bearer "]. *)
Definition bearer_credential (req : Request) : option string :=
  match authorization req with
  | Some h => if Str.startswith "Bearer " h then Str.split " " h !! 1%nat else None
  | None => None
  end.

(** An issue request with a JSON body carrying [expires_at], [hwid] and
    [plan]. *)
Definition IssueRequest (req : Request) (expires_at hwid plan : value) : Prop :=
  exists d, json req = Return (Some d) /\ d !! "expires_at" = Some expires_at /\
            d !! "hwid" = Some hwid /\ d !! "plan" = Some plan.

(** No storage failure during a request. *)
Definition no_faults (e : Env) : Prop := forall op, db_raises e op = false.

Definition bump_error (w : World) : World :=
  set_stats (fun s => mkStats (request_count s) (verify_requests s) (admin_requests s)
                              (error_count s + 1)) w.

(** Comparison of calendar dates only, time of day ignored. *)
Definition date_gt (a b : datetime) : bool :=
  lex_gt [year a; month a; day a] [year b; month b; day b].

(** A run of verify calls, one after the other. *)
Fixpoint run_verifies (calls : list (Env * Request)) (w : World)
    : list (outcome Response) * World :=
  match calls with
  | [] => ([], w)
  | (e, req) :: rest =>
      let '(r, w') := verify_license e req w in
      let '(rs, w'') := run_verifies rest w' in
      (r :: rs, w'')
  end.

Definition succeeded (r : outcome Response) : bool :=
  match r with
  | Return resp => status resp =? 200
  | Raise => false
  end.

Definition successes (rs : list (outcome Response)) : Z :=
  Z.of_nat (length (List.filter succeeded rs)).

Definition failures (rs : list (outcome Response)) : Z :=
  Z.of_nat (length (List.filter (fun r => negb (succeeded r)) rs)).

(** The characters of an upper-cased URL-safe base64 text. *)
Definition upper_alphabet : list ascii :=
  list_ascii_of_string "ABCDEFGHIJKLMNOPQRSTUVWXYZ0123456789-_".

(** ** Sample data for the concrete cases *)
Definition no_fault : DbOp -> bool := fun _ => false.

Definition log_fault : DbOp -> bool :=
  fun op => match op with OpLogUsage => true | _ => false end.

(** A digit table holding the Arabic-Indic digits U+0660 to U+0669. *)
Definition sample_digits : Z -> option Z :=
  fun cp => if (1632 <=? cp) && (cp <=? 1641) then Some (cp - 1632) else None.

Definition sample_env (now : datetime) (faulty : DbOp -> bool) : Env :=
  mkEnv "s3cret" now "2025-06-01 09:30:00" (fun _ => Byte.x00) (fun _ => "Unknown") faulty
    sample_digits.

Definition morning : datetime := mkDatetime 2025 6 1 9 30 0 0.

Definition sample_verify (k h : string) : Request :=
  mkRequest None (Return (Some (list_to_map [("key", VStr k); ("hwid", VStr h)])))
    None "203.0.113.7" "client/1.0".

Definition sample_license (hwid : value) (expires_at : string) : License :=
  mkLicense hwid expires_at (VStr "pro").

Definition sample_world (hwid : value) (expires_at : string) : World :=
  mkWorld {[ "LIC-K" := sample_license hwid expires_at ]} [] fresh_stats.

Definition sample_admin (authorization : option string) (key : option string) : Request :=
  mkRequest authorization Raise key "203.0.113.7" "admin/1.0".

(** Two draws of the random source that differ in their first byte. *)
Definition zero_draw : nat -> Byte.byte := fun _ => Byte.x00.

Definition other_draw : nat -> Byte.byte :=
  fun i => match i with O => Byte.x68 | S _ => Byte.x00 end.

(** The characters of a generated key. *)
Definition key_chars (rand : nat -> Byte.byte) : list ascii :=
  list_ascii_of_string (generate_license_key rand).

(** Check of one six-bit group: its upper-cased character is in
    [upper_alphabet] and it is not the padding character. *)
Definition sextet_ok (i : nat) : bool :=
  existsb (Ascii.eqb (Str.upper_char (Base64.sextet (N.of_nat i)))) upper_alphabet
  && negb (Ascii.eqb (Base64.sextet (N.of_nat i)) "=").

Definition sample_issue (hwid : value) : Request :=
  mkRequest (Some "Bearer s3cret")
    (Return (Some (list_to_map [("expires_at", VStr "2999-01-01"); ("hwid", hwid);
                                ("plan", VStr "pro")])))
    None "203.0.113.1" "admin/1.0".

Definition empty_world : World := mkWorld ∅ [] fresh_stats.

(** ** The routes

    [@app.route] maps [POST /verify], [POST /api/generate],
    [DELETE /api/delete], [PATCH /api/resethwid] and [GET /api/keyinfo] to
    the five handlers. *)
Inductive Route : Type :=
  | RVerify | RGenerate | RDelete | RResetHwid | RKeyInfo.

Definition serve (r : Route) : Env -> Request -> Handler Response :=
  match r with
  | RVerify => verify_license
  | RGenerate => generate_license
  | RDelete => delete_license
  | RResetHwid => reset_hwid
  | RKeyInfo => get_key_info
  end.

(** The world after a sequence of requests served one after the other. *)
Fixpoint run_requests (reqs : list (Route * Env * Request)) (w : World) : World :=
  match reqs with
  | [] => w
  | (r, e, req) :: rest => run_requests rest (snd (serve r e req w))
  end.

(** [sep.join(fields)], to state what [split] keeps. *)
Fixpoint join (sep : ascii) (fields : list string) : string :=
  match fields with
  | [] => EmptyString
  | [w] => w
  | w :: ws => w ++ String sep (join sep ws)
  end.

(** Whether a character occurs in a string. *)
Fixpoint occurs (c : ascii) (s : string) : bool :=
  match s with
  | EmptyString => false
  | String x rest => Ascii.eqb x c || occurs c rest
  end.

(** The usage rows of one key. *)
Definition rows_of (k : string) (w : World) : list UsageLog :=
  filter (fun r => log_license_key r = VStr k) (usage_logs w).

(** Every stored expiry date is one that [strptime] accepts. *)
Definition expiries_parse (u : Z -> option Z) (t : gmap string License) : Prop :=
  map_Forall (fun _ L => is_Some (Strptime.strptime u (lic_expires_at L))) t.

(** [a >= b] on naive datetimes. *)
Definition datetime_ge (a b : datetime) : bool :=
  datetime_gt a b || bool_decide (dt_fields a = dt_fields b).

Definition sample_dict (l : list (string * value)) : Request :=
  mkRequest (Some "Bearer s3cret") (Return (Some (list_to_map l)))
    None "203.0.113.1" "admin/1.0".

(** An admin request with a JSON body carrying [key]. *)
Definition KeyRequest (req : Request) (key : value) : Prop :=
  exists d, json req = Return (Some d) /\ d !! "key" = Some key.

(** The world once [require_admin_key] has counted an admin request. *)
Definition admin_counted (w : World) : World :=
  set_stats (fun s => mkStats (request_count s + 1) (verify_requests s)
                              (admin_requests s + 1) (error_count s)) w.

(** The number of [=] that [urlsafe_b64encode] appends to the encoding
    of [n] bytes. *)
Fixpoint pad_len (n : nat) : nat :=
  match n with
  | O => 0
  | S O => 2
  | S (S O) => 1
  | S (S (S m)) => pad_len m
  end.

(** Two draws that agree on their first 16 bytes only. *)
Definition late_draw : nat -> Byte.byte :=
  fun i => if Nat.ltb i 16 then Byte.x00 else Byte.xff.

(** ** Counting keys

    A letter of the ASCII alphabet: the characters that [str.upper()]
    can identify with another one. *)
Definition is_letter (c : ascii) : bool :=
  Str.in_range "A" "Z" c || Str.in_range "a" "z" c.

(** The position of a character in a list of characters (the length of
    the list when it does not occur). *)
Fixpoint position (c : ascii) (l : list ascii) : Z :=
  match l with
  | [] => 0
  | x :: l' => if Ascii.eqb c x then 0 else 1 + position c l'
  end.

(** A list of characters read as a number in base 38, each character by
    its position in [upper_alphabet]. *)
Definition base38 (l : list ascii) (acc : Z) : Z :=
  fold_left (fun a c => a * 38 + position c upper_alphabet) l acc.

(** A numbering of key texts: the 21 characters after the four of the
    prefix are read in base 38, and the last character adds its position
    among [A], [Q], [G], [W]. *)
Definition key_number (k : list ascii) : Z :=
  base38 (firstn 21 (skipn 4 k)) 0 * 4
  + position (List.last k " "%char) ["A"; "Q"; "G"; "W"]%char.

(** The draw [rand] with 104 added to its first byte, which moves the
    first base64 character from an upper-case letter to the lower-case
    letter of the same name. *)
Definition shifted_draw (rand : nat -> Byte.byte) : nat -> Byte.byte :=
  fun i => match i with
           | O => default Byte.x00 (Byte.of_N (Byte.to_N (rand O) + 104))
           | S _ => rand i
           end.

(** A draw whose base64 text is [0] twenty-one times and then [w]. *)
Definition digits_draw : nat -> Byte.byte :=
  fun i => match (i mod 3)%nat with
           | O => Byte.xd3
           | S O => Byte.x4d
           | _ => Byte.x34
           end.

(** ** Date texts, field by field

    A second reading of a date text, by its fields instead of by the
    regular expression.  The code points are cut at every [-]; there must
    be exactly three fields: a year of four decimal digits; a month
    written [1] to [9], [01] to [09] or [10] to [12]; and a day written
    [1] to [9], [01] to [09], [30], [31], [1] or [2] followed by a decimal
    digit, or a space followed by [1] to [9].  The three numbers must be a
    date of the calendar. *)
Module DateText.
Import Strptime.

Fixpoint fields (cps : list Z) : list (list Z) :=
  match cps with
  | [] => [[]]
  | c :: rest =>
      if c =? ord "-" then [] :: fields rest
      else match fields rest with
           | [] => [[c]]
           | f :: fs => (c :: f) :: fs
           end
  end.

Definition year_of (u : Z -> option Z) (t : list Z) : option Z :=
  match t with
  | [a; b; c; d] =>
      match digit_value u a, digit_value u b, digit_value u c, digit_value u d with
      | Some va, Some vb, Some vc, Some vd => Some (1000 * va + 100 * vb + 10 * vc + vd)
      | _, _, _, _ => None
      end
  | _ => None
  end.

Definition month_of (t : list Z) : option Z :=
  match t with
  | [a] => if in_range "1" "9" a then Some (a - 48) else None
  | [a; b] =>
      if in_range "0" "0" a && in_range "1" "9" b
         || in_range "1" "1" a && in_range "0" "2" b
      then Some (10 * (a - 48) + (b - 48)) else None
  | _ => None
  end.

Definition day_of (u : Z -> option Z) (t : list Z) : option Z :=
  match t with
  | [a] => if in_range "1" "9" a then Some (a - 48) else None
  | [a; b] =>
      if in_range "0" "0" a && in_range "1" "9" b
         || in_range "3" "3" a && in_range "0" "1" b
      then Some (10 * (a - 48) + (b - 48))
      else if in_range "1" "2" a then
        match digit_value u b with
        | Some vb => Some (10 * (a - 48) + vb)
        | None => None
        end
      else if (a =? ord " ") && in_range "1" "9" b then Some (b - 48)
      else None
  | _ => None
  end.

Definition read (u : Z -> option Z) (s : string) : option datetime :=
  match Utf8.decode (list_ascii_of_string s) with
  | Some cps =>
      match fields cps with
      | [Y; M; D] =>
          match year_of u Y, month_of M, day_of u D with
          | Some y, Some m, Some d =>
              if valid_date y m d then Some (mkDatetime y m d 0 0 0 0) else None
          | _, _, _ => None
          end
      | _ => None
      end
  | None => None
  end.

End DateText.

(** A date text in the strict form [YYYY-MM-DD]: ten ASCII characters,
    digits around two [-], that name a date of the calendar. *)
Definition strict_ymd (s : string) : bool :=
  match Utf8.byte <$> list_ascii_of_string s with
  | [y1; y2; y3; y4; h1; m1; m2; h2; d1; d2] =>
      forallb (fun c => (48 <=? c) && (c <=? 57)) [y1; y2; y3; y4; m1; m2; d1; d2]
      && (h1 =? 45) && (h2 =? 45)
      && valid_date (1000 * (y1 - 48) + 100 * (y2 - 48) + 10 * (y3 - 48) + (y4 - 48))
                    (10 * (m1 - 48) + (m2 - 48)) (10 * (d1 - 48) + (d2 - 48))
  | _ => false
  end.

(** * Properties *)

(** ** The library functions on known inputs *)

Example strptime_2999 u :
  Strptime.strptime u "2999-01-01" = Some (mkDatetime 2999 1 1 0 0 0 0).
Proof. reflexivity. Qed.

Example strptime_short_fields u :
  Strptime.strptime u "2024-2-29" = Some (mkDatetime 2024 2 29 0 0 0 0).
Proof. reflexivity. Qed.

Example strptime_rejects u :
  map (Strptime.strptime u)
    ["2023-02-29"; "2999-13-01"; "2999-01-011"; "0000-01-01"; "soon"; ""]
  = [None; None; None; None; None; None].
Proof. reflexivity. Qed.

Example strptime_space_day u :
  Strptime.strptime u "2999-01- 1" = Some (mkDatetime 2999 1 1 0 0 0 0).
Proof. reflexivity. Qed.

Example strptime_arabic_indic :
  Strptime.strptime sample_digits "٢٩٩٩-01-01" = Some (mkDatetime 2999 1 1 0 0 0 0) /\
  Strptime.strptime sample_digits "2999-01-1٥" = Some (mkDatetime 2999 1 15 0 0 0 0) /\
  Strptime.strptime (fun _ => None) "٢٩٩٩-01-01" = None.
Proof. split_and!; reflexivity. Qed.

Example key_of_zero_bytes :
  generate_license_key (fun _ => Byte.x00) = "LIC-AAAAAAAAAAAAAAAAAAAAAA".
Proof. reflexivity. Qed.

Example key_of_ff_bytes :
  generate_license_key (fun _ => Byte.xff) = "LIC-_____________________W".
Proof. reflexivity. Qed.

Example b64_hello :
  string_of_list_ascii
    (Base64.urlsafe_b64encode (list_byte_of_string "hello world12345"))
  = "aGVsbG8gd29ybGQxMjM0NQ==".
Proof. reflexivity. Qed.

(** ** The two readings of a date text agree *)

Lemma in_range_true lo hi cp :
  Strptime.in_range lo hi cp = true -> Strptime.ord lo <= cp <= Strptime.ord hi.
Proof. unfold Strptime.in_range. rewrite andb_true_iff, !Z.leb_le. lia. Qed.

Lemma in_range_false lo hi cp :
  Strptime.in_range lo hi cp = false -> cp < Strptime.ord lo \/ Strptime.ord hi < cp.
Proof. unfold Strptime.in_range. rewrite andb_false_iff, !Z.leb_gt. lia. Qed.

Lemma digit_value_not_dash u cp v : Strptime.digit_value u cp = Some v -> cp <> 45.
Proof. intros H ->. discriminate. Qed.

Ltac eval_ord H :=
  repeat match type of H with
  | context [Strptime.ord ?c] =>
      let v := eval vm_compute in (Strptime.ord c) in
      change (Strptime.ord c) with v in H
  end.

(** Turns every test on a code point in the context into an inequality. *)
Ltac range_facts :=
  repeat match goal with
  | H : Strptime.in_range _ _ _ = true |- _ => apply in_range_true in H; eval_ord H
  | H : Strptime.in_range _ _ _ = false |- _ => apply in_range_false in H; eval_ord H
  | H : (_ =? _) = true |- _ => apply Z.eqb_eq in H; eval_ord H
  | H : (_ =? _) = false |- _ => apply Z.eqb_neq in H; eval_ord H
  end.

Lemma fields_app t rest :
  Forall (fun c => c <> 45) t ->
  DateText.fields (t ++ 45 :: rest) = t :: DateText.fields rest.
Proof.
  induction 1 as [|c t Hc _ IH]; [reflexivity|].
  cbn [app DateText.fields]. rewrite IH.
  destruct (c =? Strptime.ord "-") eqn:E; [|reflexivity].
  apply Z.eqb_eq in E. done.
Qed.

Lemma fields_plain t :
  Forall (fun c => c <> 45) t -> DateText.fields t = [t].
Proof.
  induction 1 as [|c t Hc _ IH]; [reflexivity|].
  cbn [DateText.fields]. rewrite IH.
  destruct (c =? Strptime.ord "-") eqn:E; [|reflexivity].
  apply Z.eqb_eq in E. done.
Qed.

Lemma fields_nonempty cps : DateText.fields cps <> [].
Proof.
  destruct cps as [|c cps]; [done|]. cbn [DateText.fields].
  destruct (c =? Strptime.ord "-"); [done|]. by destruct (DateText.fields cps).
Qed.

Lemma fields_one cps D : DateText.fields cps = [D] -> cps = D.
Proof.
  revert D. induction cps as [|c cps IH]; intros D; cbn [DateText.fields].
  - intros H. by simplify_eq.
  - destruct (c =? Strptime.ord "-").
    + intros H. simplify_eq. by destruct (fields_nonempty cps).
    + destruct (DateText.fields cps) as [|f fs] eqn:Hf;
        [by destruct (fields_nonempty cps)|].
      intros H. simplify_eq. f_equal. by apply IH.
Qed.

Lemma fields_cons cps F fs :
  DateText.fields cps = F :: fs -> fs <> [] ->
  exists rest, cps = (F ++ 45 :: rest)%list /\ DateText.fields rest = fs.
Proof.
  revert F. induction cps as [|c cps IH]; intros F; cbn [DateText.fields].
  - intros H Hfs. by simplify_eq.
  - destruct (c =? Strptime.ord "-") eqn:E.
    + intros H _. apply Z.eqb_eq in E. simplify_eq. by exists cps.
    + destruct (DateText.fields cps) as [|f fs'] eqn:Hf;
        [by destruct (fields_nonempty cps)|].
      intros H Hfs. simplify_eq.
      destruct (IH f eq_refl Hfs) as (rest & -> & Hrest). by exists rest.
Qed.

(** The fields joined by [-] are the text. *)
Lemma fields_three cps Y M D :
  DateText.fields cps = [Y; M; D] -> cps = (Y ++ 45 :: M ++ 45 :: D)%list.
Proof.
  intros H.
  apply fields_cons in H as (r1 & -> & H); [|done].
  apply fields_cons in H as (r2 & -> & H); [|done].
  by apply fields_one in H as ->.
Qed.

(** Closes a goal about a field reading once every test in it has been
    decided, refuting the impossible combinations by arithmetic. *)
Ltac decide_tests :=
  repeat match goal with
  | |- context [Strptime.in_range ?lo ?hi ?c] =>
      destruct (Strptime.in_range lo hi c) eqn:?
  | |- context [?c =? Strptime.ord ?x] =>
      destruct (c =? Strptime.ord x) eqn:?
  end;
  cbn [andb orb]; try done; exfalso; range_facts; lia.

Lemma dir_Y_spec u s y r :
  (y, r) ∈ Strptime.dir_Y u s ->
  exists t, s = (t ++ r)%list /\ DateText.year_of u t = Some y /\
            Forall (fun c => c <> 45) t /\ length t = 4%nat.
Proof.
  unfold Strptime.dir_Y.
  destruct s as [|a [|b [|c [|d rest]]]]; try by rewrite elem_of_nil.
  destruct (Strptime.digit_value u a) eqn:Ha; [|by rewrite elem_of_nil].
  destruct (Strptime.digit_value u b) eqn:Hb; [|by rewrite elem_of_nil].
  destruct (Strptime.digit_value u c) eqn:Hc; [|by rewrite elem_of_nil].
  destruct (Strptime.digit_value u d) eqn:Hd; [|by rewrite elem_of_nil].
  rewrite list_elem_of_singleton. intros H. simplify_eq.
  exists [a; b; c; d]. split_and!; [done| |by eauto 10 using digit_value_not_dash|done].
  cbn [DateText.year_of]. by rewrite Ha, Hb, Hc, Hd.
Qed.

Lemma lit_spec ch s r : r ∈ Strptime.lit ch s -> s = Strptime.ord ch :: r.
Proof.
  unfold Strptime.lit. destruct s as [|c rest]; [by rewrite elem_of_nil|].
  destruct (c =? Strptime.ord ch) eqn:E; [|by rewrite elem_of_nil].
  rewrite list_elem_of_singleton. intros ->. apply Z.eqb_eq in E. by subst.
Qed.

Lemma two_spec a_lo a_hi b_lo b_hi s v r :
  (v, r) ∈ Strptime.two a_lo a_hi b_lo b_hi s ->
  exists a b, s = a :: b :: r /\ v = 10 * (a - 48) + (b - 48) /\
              Strptime.in_range a_lo a_hi a = true /\ Strptime.in_range b_lo b_hi b = true.
Proof.
  unfold Strptime.two. destruct s as [|a [|b rest]]; try by rewrite elem_of_nil.
  destruct (Strptime.in_range a_lo a_hi a) eqn:Ea, (Strptime.in_range b_lo b_hi b) eqn:Eb;
    cbn [andb]; try by rewrite elem_of_nil.
  rewrite list_elem_of_singleton. intros H. simplify_eq. by exists a, b.
Qed.

Lemma one_spec lo hi s v r :
  (v, r) ∈ Strptime.one lo hi s ->
  exists a, s = a :: r /\ v = a - 48 /\ Strptime.in_range lo hi a = true.
Proof.
  unfold Strptime.one. destruct s as [|a rest]; [by rewrite elem_of_nil|].
  destruct (Strptime.in_range lo hi a) eqn:Ea; [|by rewrite elem_of_nil].
  rewrite list_elem_of_singleton. intros H. simplify_eq. by exists a.
Qed.

Lemma range_digit_spec u lo hi s v r :
  (v, r) ∈ Strptime.range_digit u lo hi s ->
  exists a b vb, s = a :: b :: r /\ v = 10 * (a - 48) + vb /\
                 Strptime.in_range lo hi a = true /\ Strptime.digit_value u b = Some vb.
Proof.
  unfold Strptime.range_digit. destruct s as [|a [|b rest]]; try by rewrite elem_of_nil.
  destruct (Strptime.digit_value u b) as [vb|] eqn:Eb; [|by rewrite elem_of_nil].
  destruct (Strptime.in_range lo hi a) eqn:Ea; [|by rewrite elem_of_nil].
  rewrite list_elem_of_singleton. intros H. simplify_eq. by exists a, b, vb.
Qed.

Lemma space_one_spec s v r :
  (v, r) ∈ Strptime.space_one s ->
  exists b, s = 32 :: b :: r /\ v = b - 48 /\ Strptime.in_range "1" "9" b = true.
Proof.
  unfold Strptime.space_one. destruct s as [|a [|b rest]]; try by rewrite elem_of_nil.
  destruct (a =? Strptime.ord " ") eqn:Ea, (Strptime.in_range "1" "9" b) eqn:Eb;
    cbn [andb]; try by rewrite elem_of_nil.
  rewrite list_elem_of_singleton. intros H. simplify_eq.
  apply Z.eqb_eq in Ea. subst a. by exists b.
Qed.

Lemma dir_m_spec s m r :
  (m, r) ∈ Strptime.dir_m s ->
  exists t, s = (t ++ r)%list /\ DateText.month_of t = Some m /\
            Forall (fun c => c <> 45) t /\ (1 <= length t <= 2)%nat.
Proof.
  unfold Strptime.dir_m. rewrite !elem_of_app. intros [H|[H|H]].
  - apply two_spec in H as (a & b & -> & -> & Ha & Hb).
    exists [a; b]. split_and!; [done| | |simpl; lia|simpl; lia].
    + cbn [DateText.month_of]. rewrite Ha, Hb. by rewrite orb_true_r.
    + repeat constructor; range_facts; lia.
  - apply two_spec in H as (a & b & -> & -> & Ha & Hb).
    exists [a; b]. split_and!; [done| | |simpl; lia|simpl; lia].
    + cbn [DateText.month_of]. by rewrite Ha, Hb.
    + repeat constructor; range_facts; lia.
  - apply one_spec in H as (a & -> & -> & Ha).
    exists [a]. split_and!; [done| | |simpl; lia|simpl; lia].
    + cbn [DateText.month_of]. by rewrite Ha.
    + repeat constructor; range_facts; lia.
Qed.

Lemma dir_d_spec u s d r :
  (d, r) ∈ Strptime.dir_d u s ->
  exists t, s = (t ++ r)%list /\ DateText.day_of u t = Some d /\
            Forall (fun c => c <> 45) t /\ (1 <= length t <= 2)%nat.
Proof.
  unfold Strptime.dir_d. rewrite !elem_of_app. intros [H|[H|[H|[H|H]]]].
  - apply two_spec in H as (a & b & -> & -> & Ha & Hb).
    exists [a; b]. split_and!; [done| | |simpl; lia|simpl; lia].
    + cbn [DateText.day_of]. rewrite Ha, Hb. by rewrite orb_true_r.
    + repeat constructor; range_facts; lia.
  - apply range_digit_spec in H as (a & b & vb & -> & -> & Ha & Hb).
    exists [a; b]. split_and!; [done| | |simpl; lia|simpl; lia].
    + cbn [DateText.day_of]. rewrite Ha, Hb. revert Ha. decide_tests.
    + pose proof (digit_value_not_dash _ _ _ Hb).
      repeat constructor; [range_facts; lia|done].
  - apply two_spec in H as (a & b & -> & -> & Ha & Hb).
    exists [a; b]. split_and!; [done| | |simpl; lia|simpl; lia].
    + cbn [DateText.day_of]. by rewrite Ha, Hb.
    + repeat constructor; range_facts; lia.
  - apply one_spec in H as (a & -> & -> & Ha).
    exists [a]. split_and!; [done| | |simpl; lia|simpl; lia].
    + cbn [DateText.day_of]. by rewrite Ha.
    + repeat constructor; range_facts; lia.
  - apply space_one_spec in H as (b & -> & -> & Hb).
    exists [32; b]. split_and!; [done| | |simpl; lia|simpl; lia].
    + cbn [DateText.day_of]. rewrite Hb. reflexivity.
    + repeat constructor; [lia|range_facts; lia].
Qed.

(** Decides every test in the goal, then either shows the expected first
    candidate or refutes the case. *)
Ltac first_candidate :=
  repeat match goal with
  | |- context [Strptime.in_range ?lo ?hi ?c] =>
      destruct (Strptime.in_range lo hi c) eqn:?
  | |- context [?c =? Strptime.ord ?x] =>
      destruct (c =? Strptime.ord x) eqn:?
  | |- context [Strptime.digit_value ?u ?c] =>
      destruct (Strptime.digit_value u c) eqn:?
  end;
  cbn [andb orb app]; intros;
  first [ discriminate
        | simplify_eq; by eexists
        | exfalso; simplify_eq; range_facts; lia ].

Lemma dir_Y_complete u Y y r :
  DateText.year_of u Y = Some y -> Strptime.dir_Y u (Y ++ r) = [(y, r)].
Proof.
  destruct Y as [|a [|b [|c [|d [|]]]]]; try discriminate.
  cbn [DateText.year_of app Strptime.dir_Y].
  destruct (Strptime.digit_value u a), (Strptime.digit_value u b),
    (Strptime.digit_value u c), (Strptime.digit_value u d); try discriminate.
  intros H. by simplify_eq.
Qed.

Lemma dir_m_complete M m r :
  DateText.month_of M = Some m ->
  exists l, Strptime.dir_m (M ++ 45 :: r) = (m, 45 :: r) :: l.
Proof.
  destruct M as [|a [|b [|]]]; try discriminate;
    cbn [DateText.month_of app]; unfold Strptime.dir_m, Strptime.two, Strptime.one;
    first_candidate.
Qed.

Lemma dir_d_complete u D d :
  DateText.day_of u D = Some d ->
  exists l, Strptime.dir_d u D = (d, []) :: l.
Proof.
  destruct D as [|a [|b [|]]]; try discriminate;
    cbn [DateText.day_of app];
    unfold Strptime.dir_d, Strptime.two, Strptime.one, Strptime.range_digit,
      Strptime.space_one;
    first_candidate.
Qed.

Lemma matches_sound u cps y m d :
  (y, m, d, []) ∈ Strptime.matches u cps ->
  exists Y M D,
    cps = (Y ++ 45 :: M ++ 45 :: D)%list /\
    DateText.fields cps = [Y; M; D] /\
    DateText.year_of u Y = Some y /\ DateText.month_of M = Some m /\
    DateText.day_of u D = Some d /\
    length Y = 4%nat /\ (1 <= length M <= 2)%nat /\ (1 <= length D <= 2)%nat.
Proof.
  unfold Strptime.matches. intros H.
  apply list_elem_of_bind in H as ([y' s1] & H & HY).
  apply list_elem_of_bind in H as (s2 & H & H1).
  apply list_elem_of_bind in H as ([m' s3] & H & Hm).
  apply list_elem_of_bind in H as (s4 & H & H2).
  apply list_elem_of_bind in H as ([d' s5] & H & Hd).
  apply list_elem_of_singleton in H. simplify_eq.
  apply dir_Y_spec in HY as (Y & -> & HY & HYd & HYl).
  apply lit_spec in H1 as ->. apply dir_m_spec in Hm as (M & -> & Hm & HMd & HMl).
  apply lit_spec in H2 as ->. apply dir_d_spec in Hd as (D & -> & Hd & HDd & HDl).
  rewrite app_nil_r. change (Strptime.ord "-") with 45.
  exists Y, M, D. split_and!; try done; try lia.
  by rewrite (fields_app _ _ HYd), (fields_app _ _ HMd), (fields_plain _ HDd).
Qed.

Lemma lit_dash r : Strptime.lit "-" (45 :: r) = [r].
Proof. reflexivity. Qed.

Lemma matches_complete u Y M D y m d :
  DateText.year_of u Y = Some y -> DateText.month_of M = Some m ->
  DateText.day_of u D = Some d ->
  exists l, Strptime.matches u (Y ++ 45 :: M ++ 45 :: D) = (y, m, d, []) :: l.
Proof.
  intros HY HM HD. unfold Strptime.matches.
  rewrite (dir_Y_complete u Y y _ HY).
  destruct (dir_m_complete M m D HM) as (lm & Hlm).
  destruct (dir_d_complete u D d HD) as (ld & Hld).
  rewrite bind_singleton, lit_dash, bind_singleton.
  rewrite Hlm, bind_cons, lit_dash, bind_singleton.
  rewrite Hld, bind_cons. cbn [app]. by eexists.
Qed.

(** The regular expression and the field-wise reading accept the same
    texts and give the same date. *)
Lemma strptime_read u s : Strptime.strptime u s = DateText.read u s.
Proof.
  unfold Strptime.strptime, DateText.read.
  destruct (Utf8.decode (list_ascii_of_string s)) as [cps|]; [|done].
  destruct (Strptime.matches u cps) as [|[[[y m] d] [|c r]] rest] eqn:Hm.
  - destruct (DateText.fields cps) as [|Y [|M [|D [|]]]] eqn:Hf; try done.
    destruct (DateText.year_of u Y) as [y|] eqn:HY; [|done].
    destruct (DateText.month_of M) as [m|] eqn:HM; [|done].
    destruct (DateText.day_of u D) as [d|] eqn:HD; [|done].
    destruct (matches_complete u Y M D y m d HY HM HD) as (l & Hl).
    rewrite <- (fields_three _ _ _ _ Hf), Hm in Hl. done.
  - assert (Hin : (y, m, d, []) ∈ Strptime.matches u cps) by (rewrite Hm; left).
    apply matches_sound in Hin as (Y & M & D & _ & -> & -> & -> & -> & _). done.
  - destruct (DateText.fields cps) as [|Y [|M [|D [|]]]] eqn:Hf; try done.
    destruct (DateText.year_of u Y) as [y'|] eqn:HY; [|done].
    destruct (DateText.month_of M) as [m'|] eqn:HM; [|done].
    destruct (DateText.day_of u D) as [d'|] eqn:HD; [|done].
    destruct (matches_complete u Y M D y' m' d' HY HM HD) as (l & Hl).
    rewrite <- (fields_three _ _ _ _ Hf), Hm in Hl. done.
Qed.

Ltac unfold_handlers :=
  unfold verify_license, verify_sequential, verify_read, verify_resume,
    verify_body, verify_bind, verify_success, internal_error,
    LicenseDB.get_license, LicenseDB.log_usage, LicenseDB.add_license,
    LicenseDB.get_usage_info, LicenseDB.db_guard,
    try_except, bind, ret, raise, lift_outcome, increment_error, increment_request,
    bump_error in *.

Lemma contains_lookup (d : gmap string value) k v :
  d !! k = Some v -> contains d k = true.
Proof. intros H. unfold contains. rewrite H. by apply bool_decide_eq_true_2. Qed.

Lemma falsy_lookup (d : gmap string value) k v :
  d !! k = Some v -> falsy (Some d) = false.
Proof.
  intros H. simpl. apply bool_decide_eq_false_2. intros ->.
  by rewrite lookup_empty in H.
Qed.

Lemma subscript_lookup (d : gmap string value) k v :
  d !! k = Some v -> subscript d k = Return v.
Proof. intros H. unfold subscript. by rewrite H. Qed.

(** What a well-formed verify request does, by the state of the row. *)
Section VerifyCases.
Context (e : Env) (req : Request) (k : string) (h : value).
Hypothesis Hreq : VerifyRequest req (VStr k) h.
Hypothesis Hget : db_raises e OpGetLicense = false.

Lemma verify_missing w :
  licenses w !! k = None ->
  verify_license e req w = (Return (error 401 "Key not found"), bump_error w).
Proof using Hreq Hget.
  destruct Hreq as (d & Hj & Hk & Hh). intros Hnone.
  unfold_handlers. rewrite Hj.
  rewrite (falsy_lookup _ _ _ Hk), (contains_lookup _ _ _ Hk), (contains_lookup _ _ _ Hh).
  simpl. rewrite (subscript_lookup _ _ _ Hk), (subscript_lookup _ _ _ Hh), Hget.
  simpl. by rewrite Hnone.
Qed.

Lemma verify_found w L :
  licenses w !! k = Some L ->
  verify_license e req w =
    if is_expired (nd_digit e) (now e) (lic_expires_at L)
    then (Return (error 410 "License expired"), bump_error w)
    else try_except (verify_bind e req (VStr k) h L) internal_error w.
Proof using Hreq Hget.
  destruct Hreq as (d & Hj & Hk & Hh). intros Hsome.
  unfold verify_license, verify_body, try_except at 1.
  unfold bind at 1. unfold lift_outcome at 1. rewrite Hj.
  rewrite (falsy_lookup _ _ _ Hk), (contains_lookup _ _ _ Hk), (contains_lookup _ _ _ Hh).
  cbn [negb orb].
  unfold bind at 1. unfold lift_outcome at 1. rewrite (subscript_lookup _ _ _ Hk).
  unfold bind at 1. unfold lift_outcome at 1. rewrite (subscript_lookup _ _ _ Hh).
  unfold bind at 1. unfold LicenseDB.get_license, LicenseDB.db_guard.
  unfold bind at 1. rewrite Hget. simpl. rewrite Hsome.
  destruct (is_expired (nd_digit e) (now e) (lic_expires_at L)); [reflexivity|].
  unfold try_except. by destruct (verify_bind e req (VStr k) h L w) as [[r|] w'].
Qed.

End VerifyCases.

(** The binding check and what follows never answer 410. *)
Lemma verify_bind_not_expired e req key h L w :
  fst (try_except (verify_bind e req key h L) internal_error w)
    <> Return (error 410 "License expired").
Proof.
  unfold_handlers. unfold set_stats, set_licenses, set_usage_logs.
  repeat (case_match; simplify_eq/=); try discriminate.
Qed.

Lemma strptime_midnight u s dt :
  Strptime.strptime u s = Some dt ->
  dt = mkDatetime (year dt) (month dt) (day dt) 0 0 0 0.
Proof.
  unfold Strptime.strptime. intros H.
  repeat (case_match; simplify_eq/=). reflexivity.
Qed.

(** ** Expiry *)

(** C3 (as the code has it): for an existing license whose [expires_at]
    parses, [verify_license] answers "License expired" exactly when the
    current date and time is strictly later than 00:00:00 on the expiry
    date, whatever the stored and the supplied hardware ids are. *)
Theorem verify_expired_iff e req k h w L expiry :
  VerifyRequest req (VStr k) h ->
  db_raises e OpGetLicense = false ->
  licenses w !! k = Some L ->
  Strptime.strptime (nd_digit e) (lic_expires_at L) = Some expiry ->
  expiry = mkDatetime (year expiry) (month expiry) (day expiry) 0 0 0 0 /\
  (fst (verify_license e req w) = Return (error 410 "License expired")
   <-> datetime_gt (now e) expiry = true).
Proof.
  intros Hreq Hget HL Hparse. split; [by eapply strptime_midnight|].
  rewrite (verify_found e req k h Hreq Hget w L HL).
  unfold is_expired. rewrite Hparse.
  destruct (datetime_gt (now e) expiry).
  - by split.
  - split; [|discriminate]. intros Habs.
    by apply verify_bind_not_expired in Habs.
Qed.

Lemma verify_expired_iff_witness :
  fst (verify_license (sample_env morning no_fault) (sample_verify "LIC-K" "device-A")
         (sample_world (VStr "device-A") "2000-01-01"))
    = Return (error 410 "License expired")
  <-> datetime_gt morning (mkDatetime 2000 1 1 0 0 0 0) = true.
Proof.
  apply (verify_expired_iff (sample_env morning no_fault)
           (sample_verify "LIC-K" "device-A") "LIC-K" (VStr "device-A")
           (sample_world (VStr "device-A") "2000-01-01")
           (sample_license (VStr "device-A") "2000-01-01")
           (mkDatetime 2000 1 1 0 0 0 0)).
  - eexists. split; [reflexivity|]. split; reflexivity.
  - reflexivity.
  - reflexivity.
  - reflexivity.
Defined.

(** C3 as stated fails: at noon on the expiry date the calendar date is
    not later than [expires_at], yet the license is answered as expired. *)
Lemma expired_on_expiry_day :
  Strptime.strptime sample_digits "2999-01-01" = Some (mkDatetime 2999 1 1 0 0 0 0) /\
  date_gt (mkDatetime 2999 1 1 12 0 0 0) (mkDatetime 2999 1 1 0 0 0 0) = false /\
  fst (verify_license (sample_env (mkDatetime 2999 1 1 12 0 0 0) no_fault)
         (sample_verify "LIC-K" "device-A")
         (sample_world (VStr "device-A") "2999-01-01"))
    = Return (error 410 "License expired").
Proof. split; [|split]; reflexivity. Qed.

(** C4 (as the code has it): a stored [expires_at] that does not read as
    a date of the calendar in the lenient form that [strptime] takes
    (see [DateText]: four decimal digits, a month and a day of one or two
    characters) makes every verify call that reaches the expiry check
    answer "License expired"; nothing but the error counter changes. *)
Theorem malformed_expiry_fails_closed e req k h w L :
  VerifyRequest req (VStr k) h ->
  db_raises e OpGetLicense = false ->
  licenses w !! k = Some L ->
  DateText.read (nd_digit e) (lic_expires_at L) = None ->
  verify_license e req w = (Return (error 410 "License expired"), bump_error w).
Proof.
  intros Hreq Hget HL Hparse.
  rewrite (verify_found e req k h Hreq Hget w L HL).
  unfold is_expired. by rewrite strptime_read, Hparse.
Qed.

Lemma malformed_expiry_fails_closed_witness :
  verify_license (sample_env morning no_fault) (sample_verify "LIC-K" "device-A")
    (sample_world (VStr "device-A") "2999-02-30")
  = (Return (error 410 "License expired"),
     bump_error (sample_world (VStr "device-A") "2999-02-30")).
Proof.
  apply (malformed_expiry_fails_closed (sample_env morning no_fault)
           (sample_verify "LIC-K" "device-A") "LIC-K" (VStr "device-A")
           (sample_world (VStr "device-A") "2999-02-30")
           (sample_license (VStr "device-A") "2999-02-30")).
  - eexists. split; [reflexivity|]. split; reflexivity.
  - reflexivity.
  - reflexivity.
  - reflexivity.
Defined.

(** C4 as stated fails: ["2999-1-1"] is not a date in the form
    [YYYY-MM-DD], yet a license that stores it is verified as valid. *)
Lemma lenient_date_verifies :
  strict_ymd "2999-1-1" = false /\
  fst (verify_license (sample_env morning no_fault) (sample_verify "LIC-K" "device-A")
         (sample_world (VStr "device-A") "2999-1-1"))
    = Return (mkResponse 200 (PValid "2999-1-1" (VStr "pro"))).
Proof. split; reflexivity. Qed.

(** ** Failures after the checks *)

(** C5 (as the code has it): when lookup, expiry and hardware-id checks
    have passed and the usage-log insert fails, the handler's catch-all
    turns the call into "Internal server error": no usage row is added,
    the error counter goes up by one and the request counters stay. *)
Theorem log_failure_is_internal e req k h w L :
  VerifyRequest req (VStr k) h ->
  db_raises e OpGetLicense = false ->
  db_raises e OpBindHwid = false ->
  licenses w !! k = Some L ->
  is_expired (nd_digit e) (now e) (lic_expires_at L) = false ->
  lic_hwid L = VNone \/ lic_hwid L = h ->
  db_raises e OpLogUsage = true ->
  exists w',
    verify_license e req w = (Return (error 500 "Internal server error"), w') /\
    usage_logs w' = usage_logs w /\
    stats w' = stats (bump_error w).
Proof.
  intros Hreq Hget Hbind HL Hexp Hhw Hlog.
  rewrite (verify_found e req k h Hreq Hget w L HL), Hexp.
  unfold_handlers. rewrite Hlog.
  destruct (lic_hwid L) as [|stored] eqn:Hst.
  - rewrite Hbind. simpl. eexists. split; [reflexivity|]. by split.
  - destruct Hhw as [|<-]; [discriminate|].
    unfold value_ne. rewrite bool_decide_eq_true_2 by reflexivity.
    simpl. eexists. split; [reflexivity|]. by split.
Qed.

Lemma log_failure_is_internal_witness :
  exists w',
    verify_license (sample_env morning log_fault) (sample_verify "LIC-K" "device-A")
      (sample_world (VStr "device-A") "2999-01-01")
    = (Return (error 500 "Internal server error"), w') /\
    usage_logs w' = usage_logs (sample_world (VStr "device-A") "2999-01-01") /\
    stats w' = stats (bump_error (sample_world (VStr "device-A") "2999-01-01")).
Proof.
  apply (log_failure_is_internal (sample_env morning log_fault)
           (sample_verify "LIC-K" "device-A") "LIC-K" (VStr "device-A")
           (sample_world (VStr "device-A") "2999-01-01")
           (sample_license (VStr "device-A") "2999-01-01")).
  - eexists. split; [reflexivity|]. split; reflexivity.
  - reflexivity.
  - reflexivity.
  - reflexivity.
  - reflexivity.
  - right. reflexivity.
  - reflexivity.
Defined.

(** C5 as stated fails: the same call answers [valid] when the log insert
    works and "Internal server error" when it fails. *)
Lemma log_failure_changes_result :
  fst (verify_license (sample_env morning no_fault) (sample_verify "LIC-K" "device-A")
         (sample_world (VStr "device-A") "2999-01-01"))
    = Return (mkResponse 200 (PValid "2999-01-01" (VStr "pro"))) /\
  fst (verify_license (sample_env morning log_fault) (sample_verify "LIC-K" "device-A")
         (sample_world (VStr "device-A") "2999-01-01"))
    = Return (error 500 "Internal server error").
Proof. split; reflexivity. Qed.

Lemma subscript_Return (d : gmap string value) k v :
  subscript d k = Return v -> d !! k = Some v.
Proof. unfold subscript. destruct (d !! k); intros H; by simplify_eq. Qed.

(** C6 (as the code has it): [verify_license] always answers; when the
    answer is not the 200 success, no usage row is added, the verify and
    total request counters are unchanged and the error counter goes up by
    one.  When moreover the answer is not "Internal server error" (so it
    is one of 400, 401, 410, 403), the license table is unchanged.  When
    it is "Internal server error", the license table is unchanged too,
    except in one case: the usage-log insert has failed after the call
    found the license of its key unbound and unexpired; then the table
    differs only by the binding update of that license to the supplied
    hardware id. *)
Theorem verify_error_effects e req w :
  exists resp w',
    verify_license e req w = (Return resp, w') /\
    (status resp <> 200 ->
       usage_logs w' = usage_logs w /\
       verify_requests (stats w') = verify_requests (stats w) /\
       request_count (stats w') = request_count (stats w) /\
       error_count (stats w') = error_count (stats w) + 1 /\
       (status resp <> 500 -> licenses w' = licenses w) /\
       (status resp = 500 ->
          licenses w' = licenses w \/
          (db_raises e OpLogUsage = true /\
           exists key hwid L,
             VerifyRequest req key hwid /\
             LicenseDB.row_of key (licenses w) = Some L /\
             lic_hwid L = VNone /\
             is_expired (nd_digit e) (now e) (lic_expires_at L) = false /\
             licenses w' = LicenseDB.update_hwid key hwid (licenses w)))).
Proof.
  unfold_handlers. unfold set_stats, set_licenses, set_usage_logs.
  repeat (case_match; simplify_eq/=);
    (eexists; eexists; split; [reflexivity|]; simpl; intros Hne;
     try (exfalso; apply Hne; reflexivity)).
  all: split_and!; try reflexivity.
  all: try (intros Hne'; first [ reflexivity | exfalso; apply Hne'; reflexivity ]).
  all: intros _; try (by left); right.
  match goal with
  | Hj : json req = Return (Some ?d), Hk : subscript ?d "key" = Return ?key,
    Hh : subscript ?d "hwid" = Return ?hwid,
    HL : LicenseDB.row_of ?key _ = Some ?L |- _ =>
      split; [done|]; exists key, hwid, L; split_and!; try done;
      exists d; split_and!; eauto using subscript_Return
  end.
Qed.

(** C6 as stated fails: an unbound license, a working binding update and
    a failing log insert give "Internal server error" although the
    stored hardware id has changed. *)
Lemma internal_error_after_binding :
  fst (verify_license (sample_env morning log_fault) (sample_verify "LIC-K" "device-A")
         (sample_world VNone "2999-01-01"))
    = Return (error 500 "Internal server error") /\
  lic_hwid <$> licenses (sample_world VNone "2999-01-01") !! "LIC-K" = Some VNone /\
  lic_hwid <$> licenses
      (snd (verify_license (sample_env morning log_fault) (sample_verify "LIC-K" "device-A")
              (sample_world VNone "2999-01-01"))) !! "LIC-K"
    = Some (VStr "device-A").
Proof. split; [|split]; reflexivity. Qed.

(** ** The binding race *)

(** The handler is its two halves run back to back. *)
Lemma verify_license_sequential e req w :
  verify_license e req w = verify_sequential e req w.
Proof.
  unfold_handlers. unfold set_stats, set_licenses, set_usage_logs.
  repeat (case_match; simplify_eq/=); reflexivity.
Qed.

Lemma verify_read_found e req k h w L :
  VerifyRequest req (VStr k) h ->
  db_raises e OpGetLicense = false ->
  licenses w !! k = Some L ->
  is_expired (nd_digit e) (now e) (lic_expires_at L) = false ->
  verify_read e req w = (Return (inr (VStr k, h, L)), w).
Proof.
  intros (d & Hj & Hk & Hh) Hget HL Hexp.
  unfold_handlers. rewrite Hj.
  rewrite (falsy_lookup _ _ _ Hk), (contains_lookup _ _ _ Hk), (contains_lookup _ _ _ Hh).
  simpl. rewrite (subscript_lookup _ _ _ Hk), (subscript_lookup _ _ _ Hh), Hget.
  simpl. by rewrite HL, Hexp.
Qed.

(** Resuming on a row that was read as unbound writes the caller's id,
    whatever the table holds by now, and succeeds. *)
Lemma verify_resume_unbound e req k h L w :
  lic_hwid L = VNone ->
  db_raises e OpBindHwid = false ->
  db_raises e OpLogUsage = false ->
  exists w',
    verify_resume e req (VStr k, h, L) w
      = (Return (mkResponse 200 (PValid (lic_expires_at L) (lic_plan L))), w') /\
    licenses w' = LicenseDB.update_hwid (VStr k) h (licenses w).
Proof.
  intros Hnone Hbind Hlog. unfold_handlers.
  rewrite Hnone, Hbind, Hlog. simpl. eexists. split; reflexivity.
Qed.

(** C1 (what the code does): when two verify calls for an unbound,
    unexpired key both read the row before either writes, both succeed
    and the stored hardware id becomes the first caller's id and then the
    second caller's id: the unbound-to-bound step is not a
    compare-and-set. *)
Theorem verify_race_double_binding e1 req1 e2 req2 k h1 h2 w L :
  VerifyRequest req1 (VStr k) (VStr h1) ->
  VerifyRequest req2 (VStr k) (VStr h2) ->
  no_faults e1 -> no_faults e2 ->
  licenses w !! k = Some L ->
  lic_hwid L = VNone ->
  is_expired (nd_digit e1) (now e1) (lic_expires_at L) = false ->
  is_expired (nd_digit e2) (now e2) (lic_expires_at L) = false ->
  exists t1 t2,
    verify_interleaved e1 req1 e2 req2 w
      = Some (Return (mkResponse 200 (PValid (lic_expires_at L) (lic_plan L))), t1,
              Return (mkResponse 200 (PValid (lic_expires_at L) (lic_plan L))), t2) /\
    lic_hwid <$> t1 !! k = Some (VStr h1) /\
    lic_hwid <$> t2 !! k = Some (VStr h2).
Proof.
  intros Hr1 Hr2 Hf1 Hf2 HL Hnone Hx1 Hx2.
  unfold verify_interleaved.
  rewrite (verify_read_found e1 req1 k (VStr h1) w L Hr1 (Hf1 _) HL Hx1).
  rewrite (verify_read_found e2 req2 k (VStr h2) w L Hr2 (Hf2 _) HL Hx2).
  destruct (verify_resume_unbound e1 req1 k (VStr h1) L w Hnone (Hf1 _) (Hf1 _))
    as (wc & -> & Hc).
  destruct (verify_resume_unbound e2 req2 k (VStr h2) L wc Hnone (Hf2 _) (Hf2 _))
    as (wd & -> & Hd).
  eexists _, _. split; [reflexivity|].
  rewrite Hd, Hc. simpl. rewrite !lookup_alter_eq, HL. by split.
Qed.

Lemma verify_race_double_binding_witness :
  exists t1 t2,
    verify_interleaved (sample_env morning no_fault) (sample_verify "LIC-K" "device-A")
      (sample_env morning no_fault) (sample_verify "LIC-K" "device-B")
      (sample_world VNone "2999-01-01")
      = Some (Return (mkResponse 200 (PValid "2999-01-01" (VStr "pro"))), t1,
              Return (mkResponse 200 (PValid "2999-01-01" (VStr "pro"))), t2) /\
    lic_hwid <$> t1 !! "LIC-K" = Some (VStr "device-A") /\
    lic_hwid <$> t2 !! "LIC-K" = Some (VStr "device-B").
Proof.
  apply (verify_race_double_binding (sample_env morning no_fault)
           (sample_verify "LIC-K" "device-A")
           (sample_env morning no_fault) (sample_verify "LIC-K" "device-B")
           "LIC-K" "device-A" "device-B" (sample_world VNone "2999-01-01")
           (sample_license VNone "2999-01-01")).
  - eexists. split; [reflexivity|]. split; reflexivity.
  - eexists. split; [reflexivity|]. split; reflexivity.
  - intros op. reflexivity.
  - intros op. reflexivity.
  - reflexivity.
  - reflexivity.
  - reflexivity.
  - reflexivity.
Defined.

(** ** Admin authentication *)

Lemma split_nonempty sep s : exists w ws, Str.split sep s = w :: ws.
Proof.
  induction s as [|c s (w & ws & IH)]; simpl; [by eexists _, _|].
  destruct (Ascii.eqb c sep); [by eexists _, _|].
  rewrite IH. by eexists _, _.
Qed.

Lemma split_bearer h :
  Str.startswith "Bearer " h = true ->
  exists token rest, Str.split " " h = "Bearer" :: token :: rest.
Proof.
  unfold Str.startswith. intros H.
  do 7 (destruct h as [|? h]; [discriminate|]; simpl in H;
        match type of H with
        | (if ?c then _ else _) = true => destruct c; [subst|discriminate]
        end).
  destruct (split_nonempty " " h) as (token & rest & Hs).
  simpl. rewrite Hs. by eexists _, _.
Qed.

Lemma require_admin_key_accepts e req f w :
  bearer_credential req = Some (admin_key e) ->
  require_admin_key e req f w = f (snd (increment_request "admin" w)).
Proof.
  unfold bearer_credential, require_admin_key. intros H.
  destruct (authorization req) as [hd|]; [|discriminate]. simpl.
  destruct (Str.startswith "Bearer " hd) eqn:Hsw; [|discriminate]. simpl.
  destruct (split_bearer hd Hsw) as (token & rest & Hs).
  rewrite Hs in *. simpl in H. injection H as ->.
  by rewrite String.eqb_refl.
Qed.

(** C9: an admin request whose bearer credential is absent or differs
    from the admin key is answered 401 whatever the wrapped handler is:
    the handler does not run, the error counter goes up by one and the
    admin and total request counters, the licenses and the usage log are
    as before. *)
Theorem unauthorized_admin_rejected e req (f : Handler Response) w :
  bearer_credential req <> Some (admin_key e) ->
  exists msg w',
    require_admin_key e req f w = (Return (error 401 msg), w') /\
    w' = bump_error w /\
    error_count (stats w') = error_count (stats w) + 1 /\
    admin_requests (stats w') = admin_requests (stats w) /\
    request_count (stats w') = request_count (stats w).
Proof.
  unfold bearer_credential, require_admin_key. intros H.
  destruct (authorization req) as [hd|]; simpl.
  - destruct (Str.startswith "Bearer " hd) eqn:Hsw; simpl.
    + destruct (split_bearer hd Hsw) as (token & rest & Hs).
      rewrite Hs in *. simpl in H.
      destruct (String.eqb token (admin_key e)) eqn:Heq; simpl.
      * apply String.eqb_eq in Heq. congruence.
      * by eexists _, _.
    + by eexists _, _.
  - by eexists _, _.
Qed.

Lemma unauthorized_admin_rejected_witness :
  exists msg w',
    require_admin_key (sample_env morning no_fault)
      (sample_admin (Some "Bearer guess") (Some "LIC-K"))
      (try_except (key_info_body (sample_env morning no_fault)
                     (sample_admin (Some "Bearer guess") (Some "LIC-K")))
                  internal_error)
      (sample_world VNone "2999-01-01")
    = (Return (error 401 msg), w') /\
    w' = bump_error (sample_world VNone "2999-01-01") /\
    error_count (stats w') = error_count (stats (sample_world VNone "2999-01-01")) + 1 /\
    admin_requests (stats w') = admin_requests (stats (sample_world VNone "2999-01-01")) /\
    request_count (stats w') = request_count (stats (sample_world VNone "2999-01-01")).
Proof.
  apply (unauthorized_admin_rejected (sample_env morning no_fault)
           (sample_admin (Some "Bearer guess") (Some "LIC-K"))).
  vm_compute. discriminate.
Defined.

(** ** Key info *)

Lemma filter_none {A} (P : A -> Prop) `{forall x, Decision (P x)} (l : list A) :
  Forall (fun x => ~ P x) l -> filter P l = [].
Proof.
  induction 1 as [|x l Hx _ IH]; [reflexivity|].
  rewrite filter_cons. by destruct (decide (P x)).
Qed.

(** C10: for an authorised key-info request on a non-empty key that has
    no usage rows, the answer is the 200 "no key info" message whatever
    the license table holds, so with or without a license for the key. *)
Theorem key_info_no_data e req k w (t : gmap string License) :
  bearer_credential req = Some (admin_key e) ->
  arg_key req = Some k ->
  k <> "" ->
  db_raises e OpGetUsageInfo = false ->
  Forall (fun r => log_license_key r <> VStr k) (usage_logs w) ->
  fst (get_key_info e req (set_licenses (fun _ => t) w))
    = Return (mkResponse 200 (PMessage "no key info")).
Proof.
  intros Hauth Hkey Hne Hdb Hlogs. unfold get_key_info.
  rewrite (require_admin_key_accepts _ _ _ _ Hauth).
  unfold key_info_body. rewrite Hkey.
  destruct k as [|c k]; [done|].
  unfold_handlers. rewrite Hdb. simpl.
  by rewrite (filter_none _ _ Hlogs).
Qed.

Lemma key_info_no_data_witness :
  fst (get_key_info (sample_env morning no_fault)
         (sample_admin (Some "Bearer s3cret") (Some "LIC-K"))
         (set_licenses (fun _ => ∅) (sample_world VNone "2999-01-01")))
    = Return (mkResponse 200 (PMessage "no key info")).
Proof.
  apply (key_info_no_data (sample_env morning no_fault)
           (sample_admin (Some "Bearer s3cret") (Some "LIC-K")) "LIC-K"
           (sample_world VNone "2999-01-01") ∅).
  - reflexivity.
  - reflexivity.
  - discriminate.
  - reflexivity.
  - constructor.
Defined.

(** ** Metrics *)

(** One verify call moves the counters in one of two ways. *)
Lemma verify_stats_step e req w :
  stats (snd (verify_license e req w)) =
    if succeeded (fst (verify_license e req w))
    then mkStats (request_count (stats w) + 1) (verify_requests (stats w) + 1)
                 (admin_requests (stats w)) (error_count (stats w))
    else mkStats (request_count (stats w)) (verify_requests (stats w))
                 (admin_requests (stats w)) (error_count (stats w) + 1).
Proof.
  unfold_handlers. unfold set_stats, set_licenses, set_usage_logs.
  repeat (case_match; simplify_eq/=); reflexivity.
Qed.

Lemma run_verifies_stats calls : forall w,
  stats (snd (run_verifies calls w)) =
    mkStats (request_count (stats w) + successes (fst (run_verifies calls w)))
            (verify_requests (stats w) + successes (fst (run_verifies calls w)))
            (admin_requests (stats w))
            (error_count (stats w) + failures (fst (run_verifies calls w))).
Proof.
  induction calls as [|[e req] calls IH]; intros w; simpl.
  - unfold successes, failures. simpl. rewrite !Z.add_0_r. by destruct (stats w).
  - pose proof (verify_stats_step e req w) as Hstep.
    destruct (verify_license e req w) as [r w1]. simpl in Hstep.
    specialize (IH w1).
    destruct (run_verifies calls w1) as [rs w2]. simpl in *.
    rewrite IH, Hstep. unfold successes, failures. simpl.
    destruct (succeeded r); simpl; f_equal; lia.
Qed.

(** C7 (what the code does): from fresh counters, after any run of
    verify calls with [N] successes and [M] failures the snapshot has
    [verify_requests = N], [error_count = M] and [total_requests = N]
    (failed calls are not counted as requests), so the success rate is
    [(N - M) / max N 1] and not [N / (N + M)]. *)
Theorem verify_metrics calls (lic : gmap string License) (logs : list UsageLog) :
  snap_verify_requests
      (get_stats (stats (snd (run_verifies calls (mkWorld lic logs fresh_stats)))))
    = successes (fst (run_verifies calls (mkWorld lic logs fresh_stats))) /\
  snap_error_count
      (get_stats (stats (snd (run_verifies calls (mkWorld lic logs fresh_stats)))))
    = failures (fst (run_verifies calls (mkWorld lic logs fresh_stats))) /\
  total_requests
      (get_stats (stats (snd (run_verifies calls (mkWorld lic logs fresh_stats)))))
    = successes (fst (run_verifies calls (mkWorld lic logs fresh_stats))) /\
  success_rate
      (get_stats (stats (snd (run_verifies calls (mkWorld lic logs fresh_stats)))))
    = (inject_Z (successes (fst (run_verifies calls (mkWorld lic logs fresh_stats)))
                 - failures (fst (run_verifies calls (mkWorld lic logs fresh_stats))))
       / inject_Z (Z.max (successes (fst (run_verifies calls (mkWorld lic logs fresh_stats)))) 1)
       * inject_Z 100)%Q.
Proof.
  rewrite run_verifies_stats. simpl. unfold get_stats. simpl. by repeat split.
Qed.

(** One success and one failure: the rate is 0 percent, not 50. *)
Lemma success_rate_one_of_two :
  map succeeded
      (fst (run_verifies
              [(sample_env morning no_fault, sample_verify "LIC-K" "device-A");
               (sample_env morning no_fault, sample_verify "LIC-K" "device-B")]
              (sample_world VNone "2999-01-01")))
    = [true; false] /\
  (success_rate
     (get_stats (stats (snd (run_verifies
        [(sample_env morning no_fault, sample_verify "LIC-K" "device-A");
         (sample_env morning no_fault, sample_verify "LIC-K" "device-B")]
        (sample_world VNone "2999-01-01"))))) == 0)%Q.
Proof. split; reflexivity. Qed.

(** A single failing call: the rate is -100 percent. *)
Lemma success_rate_negative :
  (success_rate
     (get_stats (stats (snd (run_verifies
        [(sample_env morning no_fault, sample_verify "LIC-X" "device-A")]
        (sample_world VNone "2999-01-01"))))) == inject_Z (-100))%Q.
Proof. reflexivity. Qed.

(** ** Key generation *)

Lemma all_sextets_ok : forallb sextet_ok (seq 0 64) = true.
Proof. vm_compute. reflexivity. Qed.

Lemma sextet_upper n :
  (n < 64)%N ->
  In (Str.upper_char (Base64.sextet n)) upper_alphabet /\ Base64.sextet n <> "="%char.
Proof.
  intros Hn.
  pose proof (proj1 (forallb_forall _ _) all_sextets_ok (N.to_nat n)) as H.
  unfold sextet_ok in H. rewrite N2Nat.id in H.
  assert (Hin : In (N.to_nat n) (seq 0 64)) by (apply in_seq; lia).
  specialize (H Hin). apply andb_prop in H as [H1 H2]. split.
  - apply existsb_exists in H1 as (c & Hc & Heq).
    apply Ascii.eqb_eq in Heq. by rewrite Heq.
  - intros Heq. rewrite Heq in H2. discriminate.
Qed.

Lemma rstrip_keep c x l : x <> c -> Str.rstrip c (x :: l) = x :: Str.rstrip c l.
Proof.
  intros Hne. simpl. destruct (Str.rstrip c l); [|reflexivity].
  apply Ascii.eqb_neq in Hne. by rewrite Hne.
Qed.

Lemma index_high (x : Byte.byte) : (Byte.to_N x / 4 < 64)%N.
Proof.
  pose proof (Byte.to_N_bounded x). apply N.Div0.div_lt_upper_bound. lia.
Qed.

Lemma index_mid1 (x y : Byte.byte) :
  (Byte.to_N x mod 4 * 16 + Byte.to_N y / 16 < 64)%N.
Proof.
  pose proof (Byte.to_N_bounded y).
  assert (Byte.to_N x mod 4 < 4)%N by (apply N.mod_upper_bound; lia).
  assert (Byte.to_N y / 16 < 16)%N by (apply N.Div0.div_lt_upper_bound; lia).
  generalize dependent (Byte.to_N x mod 4)%N.
  generalize dependent (Byte.to_N y / 16)%N. intros. lia.
Qed.

Lemma index_mid2 (y z : Byte.byte) :
  (Byte.to_N y mod 16 * 4 + Byte.to_N z / 64 < 64)%N.
Proof.
  pose proof (Byte.to_N_bounded z).
  assert (Byte.to_N y mod 16 < 16)%N by (apply N.mod_upper_bound; lia).
  assert (Byte.to_N z / 64 < 4)%N by (apply N.Div0.div_lt_upper_bound; lia).
  generalize dependent (Byte.to_N y mod 16)%N.
  generalize dependent (Byte.to_N z / 64)%N. intros. lia.
Qed.

Lemma index_low (z : Byte.byte) : (Byte.to_N z mod 64 < 64)%N.
Proof. apply N.mod_upper_bound. lia. Qed.

Lemma index_last (x : Byte.byte) : (Byte.to_N x mod 4 * 16 < 64)%N.
Proof.
  assert (Byte.to_N x mod 4 < 4)%N by (apply N.mod_upper_bound; lia).
  generalize dependent (Byte.to_N x mod 4)%N. intros. lia.
Qed.

Create HintDb sextet.
#[local] Hint Resolve index_high index_mid1 index_mid2 index_low index_last : sextet.

Lemma chars_of_append (a b : string) :
  list_ascii_of_string (a ++ b)
  = (list_ascii_of_string a ++ list_ascii_of_string b)%list.
Proof.
  induction a as [|c a IH]; [reflexivity|].
  change (String c a ++ b) with (String c (a ++ b)).
  cbn [list_ascii_of_string app]. by rewrite IH.
Qed.

Lemma last_sextet (x : Byte.byte) :
  In (Str.upper_char (Base64.sextet (Byte.to_N x mod 4 * 16)))
     ["A"; "Q"; "G"; "W"]%char.
Proof.
  assert (H : (Byte.to_N x mod 4 < 4)%N) by (apply N.mod_upper_bound; lia).
  assert (Hc : (Byte.to_N x mod 4 = 0 \/ Byte.to_N x mod 4 = 1 \/
                Byte.to_N x mod 4 = 2 \/ Byte.to_N x mod 4 = 3)%N)
    by (generalize dependent (Byte.to_N x mod 4)%N; intros; lia).
  destruct Hc as [-> | [-> | [-> | ->]]]; vm_compute; auto 6.
Qed.

(** The characters of a key: the prefix, the first 21 characters of the
    token upper-cased, and the upper-cased character of the last two bits
    of the draw. *)
Lemma key_chars_form rand :
  exists body,
    length body = 21%nat /\
    Forall (fun c => exists n, (n < 64)%N /\ c = Base64.sextet n) body /\
    token_urlsafe rand 16
      = (body ++ [Base64.sextet (Byte.to_N (rand 15%nat) mod 4 * 16)])%list /\
    key_chars rand
      = (list_ascii_of_string "LIC-" ++ Str.upper body
           ++ [Str.upper_char (Base64.sextet (Byte.to_N (rand 15%nat) mod 4 * 16))])%list.
Proof.
  unfold key_chars, generate_license_key, token_urlsafe, token_bytes.
  cbn [seq map Base64.urlsafe_b64encode].
  repeat (rewrite rstrip_keep by (apply sextet_upper; auto with sextet)).
  cbn [Str.rstrip Ascii.eqb Bool.eqb].
  match goal with
  | |- exists body, _ /\ _ /\ ?l = _ /\ _ => exists (removelast l)
  end.
  cbn [removelast app]. split_and!.
  - reflexivity.
  - repeat (constructor; [eexists; (split; [|reflexivity]); auto with sextet|]).
    constructor.
  - reflexivity.
  - rewrite chars_of_append, list_ascii_of_string_of_list_ascii. reflexivity.
Qed.

(** ** Issue, bind, mismatch *)

Lemma generate_license_adds e req expires_at dt hwid plan w :
  bearer_credential req = Some (admin_key e) ->
  IssueRequest req (VStr expires_at) hwid plan ->
  Strptime.strptime (nd_digit e) expires_at = Some dt ->
  db_raises e OpAddLicense = false ->
  licenses w !! generate_license_key (rand e) = None ->
  exists w',
    generate_license e req w
      = (Return (mkResponse 200 (PGenerated (generate_license_key (rand e)) expires_at)), w') /\
    licenses w'
      = <[generate_license_key (rand e) := mkLicense hwid expires_at plan]> (licenses w).
Proof.
  intros Hauth (d & Hj & Hx & Hh & Hp) Hparse Hdb Hfree.
  unfold generate_license. rewrite (require_admin_key_accepts _ _ _ _ Hauth).
  unfold generate_body. unfold_handlers. rewrite Hj.
  rewrite (falsy_lookup _ _ _ Hx), (contains_lookup _ _ _ Hx), (contains_lookup _ _ _ Hh).
  simpl. rewrite (subscript_lookup _ _ _ Hx). rewrite Hparse.
  rewrite (subscript_lookup _ _ _ Hh), Hdb. simpl. rewrite Hfree, Hp. simpl.
  eexists. split; reflexivity.
Qed.

(** C2 (as the code has it): after an issue with [expires_at]
    ["2999-01-01"], a null [hwid] and plan ["pro"] has returned key [K], a
    first verify of [K] for ["device-A"] before the expiry answers
    [valid] with that expiry and plan and stores ["device-A"], and a
    following verify for ["device-B"] answers "HWID mismatch" and leaves
    the stored data as it is. *)
Theorem issue_bind_mismatch e0 req0 eA reqA eB reqB w :
  bearer_credential req0 = Some (admin_key e0) ->
  IssueRequest req0 (VStr "2999-01-01") VNone (VStr "pro") ->
  no_faults e0 -> no_faults eA -> no_faults eB ->
  licenses w !! generate_license_key (rand e0) = None ->
  datetime_gt (now eA) (mkDatetime 2999 1 1 0 0 0 0) = false ->
  datetime_gt (now eB) (mkDatetime 2999 1 1 0 0 0 0) = false ->
  VerifyRequest reqA (VStr (generate_license_key (rand e0))) (VStr "device-A") ->
  VerifyRequest reqB (VStr (generate_license_key (rand e0))) (VStr "device-B") ->
  exists w1 w2,
    generate_license e0 req0 w
      = (Return (mkResponse 200 (PGenerated (generate_license_key (rand e0)) "2999-01-01")),
         w1) /\
    verify_license eA reqA w1
      = (Return (mkResponse 200 (PValid "2999-01-01" (VStr "pro"))), w2) /\
    lic_hwid <$> licenses w2 !! generate_license_key (rand e0) = Some (VStr "device-A") /\
    verify_license eB reqB w2 = (Return (error 403 "HWID mismatch"), bump_error w2).
Proof.
  intros Hauth Hissue Hf0 HfA HfB Hfree HnowA HnowB HreqA HreqB.
  set (K := generate_license_key (rand e0)) in *.
  destruct (generate_license_adds e0 req0 "2999-01-01" _ VNone (VStr "pro") w
              Hauth Hissue (strptime_2999 _) (Hf0 _) Hfree) as (w1 & Hgen & Hlic1).
  assert (HK1 : licenses w1 !! K = Some (mkLicense VNone "2999-01-01" (VStr "pro")))
    by (rewrite Hlic1; apply lookup_insert_eq).
  pose proof (verify_found eA reqA K _ HreqA (HfA _) w1 _ HK1) as HvA.
  unfold is_expired in HvA. cbn [lic_expires_at] in HvA.
  rewrite strptime_2999, HnowA in HvA.
  destruct (verify_resume_unbound eA reqA K (VStr "device-A")
              (mkLicense VNone "2999-01-01" (VStr "pro")) w1 eq_refl (HfA _) (HfA _))
    as (w2 & Hres & Hlic2).
  unfold verify_resume in Hres. cbn [lic_expires_at lic_plan] in Hres.
  rewrite Hres in HvA.
  assert (HK2 : licenses w2 !! K
                = Some (mkLicense (VStr "device-A") "2999-01-01" (VStr "pro"))).
  { rewrite Hlic2. simpl. by rewrite lookup_alter_eq, HK1. }
  exists w1, w2. split_and!; [done|done|by rewrite HK2|].
  rewrite (verify_found eB reqB K _ HreqB (HfB _) w2 _ HK2).
  unfold is_expired. cbn [lic_expires_at]. rewrite strptime_2999, HnowB.
  reflexivity.
Qed.

Lemma issue_bind_mismatch_witness :
  exists w1 w2,
    generate_license (sample_env morning no_fault) (sample_issue VNone) empty_world
      = (Return (mkResponse 200
                   (PGenerated (generate_license_key (rand (sample_env morning no_fault)))
                      "2999-01-01")), w1) /\
    verify_license (sample_env morning no_fault)
      (sample_verify "LIC-AAAAAAAAAAAAAAAAAAAAAA" "device-A") w1
      = (Return (mkResponse 200 (PValid "2999-01-01" (VStr "pro"))), w2) /\
    lic_hwid <$> licenses w2 !! generate_license_key (rand (sample_env morning no_fault))
      = Some (VStr "device-A") /\
    verify_license (sample_env morning no_fault)
      (sample_verify "LIC-AAAAAAAAAAAAAAAAAAAAAA" "device-B") w2
      = (Return (error 403 "HWID mismatch"), bump_error w2).
Proof.
  apply (issue_bind_mismatch (sample_env morning no_fault) (sample_issue VNone)
           (sample_env morning no_fault)
           (sample_verify "LIC-AAAAAAAAAAAAAAAAAAAAAA" "device-A")
           (sample_env morning no_fault)
           (sample_verify "LIC-AAAAAAAAAAAAAAAAAAAAAA" "device-B")
           empty_world).
  - reflexivity.
  - eexists. split; [reflexivity|]. split; [reflexivity|]. split; reflexivity.
  - intros op. reflexivity.
  - intros op. reflexivity.
  - intros op. reflexivity.
  - reflexivity.
  - reflexivity.
  - reflexivity.
  - eexists. split; [reflexivity|]. split; reflexivity.
  - eexists. split; [reflexivity|]. split; reflexivity.
Defined.

(** C2 as stated fails: with the empty string as [hwid] the license is
    stored bound to the empty string, and the first verify for
    ["device-A"] already answers "HWID mismatch". *)
Lemma empty_hwid_is_bound :
  fst (generate_license (sample_env morning no_fault) (sample_issue (VStr "")) empty_world)
    = Return (mkResponse 200 (PGenerated "LIC-AAAAAAAAAAAAAAAAAAAAAA" "2999-01-01")) /\
  fst (verify_license (sample_env morning no_fault)
         (sample_verify "LIC-AAAAAAAAAAAAAAAAAAAAAA" "device-A")
         (snd (generate_license (sample_env morning no_fault) (sample_issue (VStr ""))
                 empty_world)))
    = Return (error 403 "HWID mismatch") /\
  lic_hwid <$>
    licenses (snd (verify_license (sample_env morning no_fault)
                     (sample_verify "LIC-AAAAAAAAAAAAAAAAAAAAAA" "device-A")
                     (snd (generate_license (sample_env morning no_fault)
                             (sample_issue (VStr "")) empty_world))))
      !! "LIC-AAAAAAAAAAAAAAAAAAAAAA"
    = Some (VStr "").
Proof. split; [|split]; reflexivity. Qed.

(** * Further properties of the handlers *)

(** ** The outcomes of [verify_license] *)

Lemma contains_missing (d : gmap string value) k :
  d !! k = None -> contains d k = false.
Proof.
  intros H. unfold contains. rewrite H. apply bool_decide_eq_false_2.
  by intros [? ?].
Qed.

(** X1: a verify request that carries no JSON object with both [key]
    and [hwid] is refused, and only the error counter changes.  When
    [request.get_json()] raises (a request without a JSON body) the
    handler's catch-all answers 500 "Internal server error"; when it
    returns null, an empty object, or an object lacking [key] or [hwid],
    the answer is 400 "Missing required fields". *)
Theorem verify_bad_request e req w :
  (forall d, json req = Return (Some d) -> d !! "key" = None \/ d !! "hwid" = None) ->
  verify_license e req w
    = (Return match json req with
              | Raise => error 500 "Internal server error"
              | Return _ => error 400 "Missing required fields"
              end,
       bump_error w).
Proof.
  intros Hd. unfold_handlers.
  destruct (json req) as [[d|]|]; [|reflexivity|reflexivity].
  destruct (Hd d eq_refl) as [Hk|Hh].
  - rewrite (contains_missing _ _ Hk). simpl. by rewrite orb_true_r.
  - rewrite (contains_missing _ _ Hh). simpl. by rewrite orb_true_r.
Qed.

Lemma verify_bad_request_witness :
  verify_license (sample_env morning no_fault)
    (sample_dict [("key", VStr "LIC-K")]) (sample_world VNone "2999-01-01")
  = (Return (error 400 "Missing required fields"),
     bump_error (sample_world VNone "2999-01-01")) /\
  verify_license (sample_env morning no_fault)
    (mkRequest None Raise None "203.0.113.7" "client/1.0")
    (sample_world VNone "2999-01-01")
  = (Return (error 500 "Internal server error"),
     bump_error (sample_world VNone "2999-01-01")).
Proof.
  split.
  - apply (verify_bad_request (sample_env morning no_fault)
             (sample_dict [("key", VStr "LIC-K")])).
    intros d Hd. injection Hd as <-. right. reflexivity.
  - apply (verify_bad_request (sample_env morning no_fault)
             (mkRequest None Raise None "203.0.113.7" "client/1.0")).
    intros d Hd. discriminate Hd.
Defined.

(** X2: a verify request for a key that selects no license row (an
    unknown key, or a JSON null key) is answered 401 "Key not found";
    only the error counter changes. *)
Theorem verify_unknown_key e req key h w :
  VerifyRequest req key h ->
  db_raises e OpGetLicense = false ->
  LicenseDB.row_of key (licenses w) = None ->
  verify_license e req w = (Return (error 401 "Key not found"), bump_error w).
Proof.
  intros (d & Hj & Hk & Hh) Hget Hnone.
  unfold_handlers. rewrite Hj.
  rewrite (falsy_lookup _ _ _ Hk), (contains_lookup _ _ _ Hk), (contains_lookup _ _ _ Hh).
  simpl. rewrite (subscript_lookup _ _ _ Hk), (subscript_lookup _ _ _ Hh), Hget.
  simpl. by rewrite Hnone.
Qed.

Lemma verify_unknown_key_witness :
  verify_license (sample_env morning no_fault)
    (sample_dict [("key", VNone); ("hwid", VStr "device-A")])
    (sample_world VNone "2999-01-01")
  = (Return (error 401 "Key not found"), bump_error (sample_world VNone "2999-01-01")).
Proof.
  apply (verify_unknown_key (sample_env morning no_fault)
           (sample_dict [("key", VNone); ("hwid", VStr "device-A")])
           VNone (VStr "device-A")).
  - eexists. split; [reflexivity|]. split; reflexivity.
  - reflexivity.
  - reflexivity.
Defined.

(** X3: a verify of an unexpired license bound to the supplied hardware id
    answers [valid] with the stored expiry and plan, appends exactly one
    usage row carrying the key, address, user agent, hardware id, time
    and country of the call, adds one to the total and verify counters,
    and leaves the license table as it is. *)
Theorem verify_bound_match e req k h w L :
  VerifyRequest req (VStr k) (VStr h) ->
  db_raises e OpGetLicense = false ->
  db_raises e OpLogUsage = false ->
  licenses w !! k = Some L ->
  is_expired (nd_digit e) (now e) (lic_expires_at L) = false ->
  lic_hwid L = VStr h ->
  verify_license e req w
    = (Return (mkResponse 200 (PValid (lic_expires_at L) (lic_plan L))),
       mkWorld (licenses w)
         (usage_logs w ++
            [mkUsageLog (VStr k) (client_ip req) (user_agent req) (VStr h)
               (current_timestamp e) (get_country e (client_ip req))])
         (mkStats (request_count (stats w) + 1) (verify_requests (stats w) + 1)
            (admin_requests (stats w)) (error_count (stats w)))).
Proof.
  intros Hreq Hget Hlog HL Hexp Hhw.
  rewrite (verify_found e req k _ Hreq Hget w L HL), Hexp.
  unfold_handlers. rewrite Hhw, Hlog. unfold value_ne.
  rewrite bool_decide_eq_true_2 by reflexivity. reflexivity.
Qed.

Lemma verify_bound_match_witness :
  verify_license (sample_env morning no_fault) (sample_verify "LIC-K" "device-A")
    (sample_world (VStr "device-A") "2999-01-01")
  = (Return (mkResponse 200 (PValid "2999-01-01" (VStr "pro"))),
     mkWorld (licenses (sample_world (VStr "device-A") "2999-01-01"))
       ([] ++ [mkUsageLog (VStr "LIC-K") "203.0.113.7" "client/1.0" (VStr "device-A")
                 "2025-06-01 09:30:00" "Unknown"])
       (mkStats (0 + 1) (0 + 1) 0 0)).
Proof.
  apply (verify_bound_match (sample_env morning no_fault)
           (sample_verify "LIC-K" "device-A") "LIC-K" "device-A"
           (sample_world (VStr "device-A") "2999-01-01")
           (sample_license (VStr "device-A") "2999-01-01")).
  - eexists. split; [reflexivity|]. split; reflexivity.
  - reflexivity.
  - reflexivity.
  - reflexivity.
  - reflexivity.
  - reflexivity.
Defined.

(** X4: a verify of an unexpired license bound to another hardware id
    (or made with a JSON null id) is answered 403 "HWID mismatch"; only
    the error counter changes. *)
Theorem verify_bound_mismatch e req k h stored w L :
  VerifyRequest req (VStr k) h ->
  db_raises e OpGetLicense = false ->
  licenses w !! k = Some L ->
  is_expired (nd_digit e) (now e) (lic_expires_at L) = false ->
  lic_hwid L = VStr stored ->
  h <> VStr stored ->
  verify_license e req w = (Return (error 403 "HWID mismatch"), bump_error w).
Proof.
  intros Hreq Hget HL Hexp Hhw Hne.
  rewrite (verify_found e req k _ Hreq Hget w L HL), Hexp.
  unfold_handlers. rewrite Hhw. unfold value_ne.
  rewrite bool_decide_eq_false_2 by congruence. reflexivity.
Qed.

Lemma verify_bound_mismatch_witness :
  verify_license (sample_env morning no_fault)
    (sample_dict [("key", VStr "LIC-K"); ("hwid", VNone)])
    (sample_world (VStr "device-A") "2999-01-01")
  = (Return (error 403 "HWID mismatch"),
     bump_error (sample_world (VStr "device-A") "2999-01-01")).
Proof.
  apply (verify_bound_mismatch (sample_env morning no_fault)
           (sample_dict [("key", VStr "LIC-K"); ("hwid", VNone)])
           "LIC-K" VNone "device-A"
           (sample_world (VStr "device-A") "2999-01-01")
           (sample_license (VStr "device-A") "2999-01-01")).
  - eexists. split; [reflexivity|]. split; reflexivity.
  - reflexivity.
  - reflexivity.
  - reflexivity.
  - reflexivity.
  - discriminate.
Defined.

(** X5: the first verify of an unbound, unexpired license answers [valid]
    and stores the supplied hardware id; the expiry and plan of that
    license and every other license are as before. *)
Theorem verify_first_binds e req k h w L :
  VerifyRequest req (VStr k) h ->
  no_faults e ->
  licenses w !! k = Some L ->
  is_expired (nd_digit e) (now e) (lic_expires_at L) = false ->
  lic_hwid L = VNone ->
  fst (verify_license e req w)
    = Return (mkResponse 200 (PValid (lic_expires_at L) (lic_plan L))) /\
  licenses (snd (verify_license e req w)) !! k
    = Some (mkLicense h (lic_expires_at L) (lic_plan L)) /\
  (forall k', k' <> k ->
     licenses (snd (verify_license e req w)) !! k' = licenses w !! k').
Proof.
  intros Hreq Hf HL Hexp Hnone.
  rewrite (verify_found e req k _ Hreq (Hf _) w L HL), Hexp.
  destruct (verify_resume_unbound e req k h L w Hnone (Hf _) (Hf _)) as (w' & Hres & Hlic).
  unfold verify_resume in Hres. rewrite Hres. simpl. rewrite Hlic. simpl.
  split_and!; [done| |].
  - by rewrite lookup_alter_eq, HL.
  - intros k' Hne. by rewrite lookup_alter_ne.
Qed.

Lemma verify_first_binds_witness :
  fst (verify_license (sample_env morning no_fault) (sample_verify "LIC-K" "device-A")
         (sample_world VNone "2999-01-01"))
    = Return (mkResponse 200 (PValid "2999-01-01" (VStr "pro"))) /\
  licenses (snd (verify_license (sample_env morning no_fault)
                   (sample_verify "LIC-K" "device-A")
                   (sample_world VNone "2999-01-01"))) !! "LIC-K"
    = Some (mkLicense (VStr "device-A") "2999-01-01" (VStr "pro")) /\
  (forall k', k' <> "LIC-K" ->
     licenses (snd (verify_license (sample_env morning no_fault)
                      (sample_verify "LIC-K" "device-A")
                      (sample_world VNone "2999-01-01"))) !! k'
     = licenses (sample_world VNone "2999-01-01") !! k').
Proof.
  apply (verify_first_binds (sample_env morning no_fault)
           (sample_verify "LIC-K" "device-A") "LIC-K" (VStr "device-A")
           (sample_world VNone "2999-01-01") (sample_license VNone "2999-01-01")).
  - eexists. split; [reflexivity|]. split; reflexivity.
  - intros op. reflexivity.
  - reflexivity.
  - reflexivity.
  - reflexivity.
Defined.

(** X6: a verify that carries a JSON null [hwid] passes the field check;
    on an unbound, unexpired license it answers [valid] and the license
    table is unchanged, so the license stays unbound. *)
Theorem verify_null_hwid_stays_unbound e req k w L :
  VerifyRequest req (VStr k) VNone ->
  no_faults e ->
  licenses w !! k = Some L ->
  is_expired (nd_digit e) (now e) (lic_expires_at L) = false ->
  lic_hwid L = VNone ->
  fst (verify_license e req w)
    = Return (mkResponse 200 (PValid (lic_expires_at L) (lic_plan L))) /\
  licenses (snd (verify_license e req w)) = licenses w.
Proof.
  intros Hreq Hf HL Hexp Hnone.
  rewrite (verify_found e req k _ Hreq (Hf _) w L HL), Hexp.
  destruct (verify_resume_unbound e req k VNone L w Hnone (Hf _) (Hf _))
    as (w' & Hres & Hlic).
  unfold verify_resume in Hres. rewrite Hres. simpl. split; [done|].
  rewrite Hlic. simpl. apply alter_id. intros L' HL'.
  rewrite HL in HL'. injection HL' as <-. destruct L. simpl in *. by subst.
Qed.

Lemma verify_null_hwid_stays_unbound_witness :
  fst (verify_license (sample_env morning no_fault)
         (sample_dict [("key", VStr "LIC-K"); ("hwid", VNone)])
         (sample_world VNone "2999-01-01"))
    = Return (mkResponse 200 (PValid "2999-01-01" (VStr "pro"))) /\
  licenses (snd (verify_license (sample_env morning no_fault)
                   (sample_dict [("key", VStr "LIC-K"); ("hwid", VNone)])
                   (sample_world VNone "2999-01-01")))
    = licenses (sample_world VNone "2999-01-01").
Proof.
  apply (verify_null_hwid_stays_unbound (sample_env morning no_fault)
           (sample_dict [("key", VStr "LIC-K"); ("hwid", VNone)]) "LIC-K"
           (sample_world VNone "2999-01-01") (sample_license VNone "2999-01-01")).
  - eexists. split; [reflexivity|]. split; reflexivity.
  - intros op. reflexivity.
  - reflexivity.
  - reflexivity.
  - reflexivity.
Defined.

(** ** The admin routes *)

Lemma admin_counted_eq w : snd (increment_request "admin" w) = admin_counted w.
Proof. reflexivity. Qed.

Lemma reset_hwid_run e req key w :
  bearer_credential req = Some (admin_key e) ->
  KeyRequest req key ->
  db_raises e OpResetHwid = false ->
  reset_hwid e req w =
    match LicenseDB.row_of key (licenses w) with
    | Some _ =>
        (Return (mkResponse 200 (PHwid VNone)),
         set_licenses (LicenseDB.update_hwid key VNone) (admin_counted w))
    | None =>
        (Return (error 404 "License key not found"),
         bump_error (set_licenses (LicenseDB.update_hwid key VNone) (admin_counted w)))
    end.
Proof.
  intros Hauth (d & Hj & Hk) Hdb. unfold reset_hwid.
  rewrite (require_admin_key_accepts _ _ _ _ Hauth), admin_counted_eq.
  unfold reset_body, LicenseDB.reset_hwid. unfold_handlers. rewrite Hj.
  rewrite (falsy_lookup _ _ _ Hk), (contains_lookup _ _ _ Hk).
  simpl. rewrite (subscript_lookup _ _ _ Hk), Hdb. simpl.
  destruct (LicenseDB.row_of key (licenses w)) as [L|] eqn:Hrow.
  - rewrite bool_decide_eq_true_2 by eauto. reflexivity.
  - rewrite bool_decide_eq_false_2 by (by intros [? ?]). reflexivity.
Qed.

Lemma delete_license_run e req key w :
  bearer_credential req = Some (admin_key e) ->
  KeyRequest req key ->
  db_raises e OpDeleteLicense = false ->
  delete_license e req w =
    match LicenseDB.row_of key (licenses w) with
    | Some _ =>
        (Return (mkResponse 200 (PMessage "successfully deleted")),
         set_licenses (LicenseDB.delete_row key) (admin_counted w))
    | None =>
        (Return (error 404 "License key not found"),
         bump_error (set_licenses (LicenseDB.delete_row key) (admin_counted w)))
    end.
Proof.
  intros Hauth (d & Hj & Hk) Hdb. unfold delete_license.
  rewrite (require_admin_key_accepts _ _ _ _ Hauth), admin_counted_eq.
  unfold delete_body, LicenseDB.delete_license. unfold_handlers. rewrite Hj.
  rewrite (falsy_lookup _ _ _ Hk), (contains_lookup _ _ _ Hk).
  simpl. rewrite (subscript_lookup _ _ _ Hk), Hdb. simpl.
  destruct (LicenseDB.row_of key (licenses w)) as [L|] eqn:Hrow.
  - rewrite bool_decide_eq_true_2 by eauto. reflexivity.
  - rewrite bool_decide_eq_false_2 by (by intros [? ?]). reflexivity.
Qed.

Lemma update_hwid_absent key hw (t : gmap string License) :
  LicenseDB.row_of key t = None -> LicenseDB.update_hwid key hw t = t.
Proof.
  destruct key as [|k]; [reflexivity|]. simpl. intros Hnone.
  apply alter_id. intros L HL. congruence.
Qed.

Lemma delete_row_absent key (t : gmap string License) :
  LicenseDB.row_of key t = None -> LicenseDB.delete_row key t = t.
Proof.
  destruct key as [|k]; [reflexivity|]. simpl. apply delete_id.
Qed.

(** X7: after an authorised reset of an existing license, whatever it
    was bound to, the stored hardware id is null, and a following verify
    of the unexpired license with any hardware id answers [valid] and
    stores that id. *)
Theorem reset_then_verify_rebinds e1 req1 e2 req2 k h w L :
  bearer_credential req1 = Some (admin_key e1) ->
  KeyRequest req1 (VStr k) ->
  no_faults e1 ->
  VerifyRequest req2 (VStr k) h ->
  no_faults e2 ->
  licenses w !! k = Some L ->
  is_expired (nd_digit e2) (now e2) (lic_expires_at L) = false ->
  fst (reset_hwid e1 req1 w) = Return (mkResponse 200 (PHwid VNone)) /\
  lic_hwid <$> licenses (snd (reset_hwid e1 req1 w)) !! k = Some VNone /\
  fst (verify_license e2 req2 (snd (reset_hwid e1 req1 w)))
    = Return (mkResponse 200 (PValid (lic_expires_at L) (lic_plan L))) /\
  lic_hwid <$> licenses (snd (verify_license e2 req2 (snd (reset_hwid e1 req1 w)))) !! k
    = Some h.
Proof.
  intros Hauth Hkey Hf1 Hreq Hf2 HL Hexp.
  rewrite (reset_hwid_run e1 req1 (VStr k) w Hauth Hkey (Hf1 _)).
  cbn [LicenseDB.row_of]. rewrite HL. cbn [fst snd].
  set (w1 := set_licenses _ _).
  assert (H1 : licenses w1 !! k = Some (mkLicense VNone (lic_expires_at L) (lic_plan L))).
  { unfold w1. simpl. by rewrite lookup_alter_eq, HL. }
  split; [done|]. split; [by rewrite H1|].
  rewrite (verify_found e2 req2 k _ Hreq (Hf2 _) w1 _ H1).
  cbn [lic_expires_at]. rewrite Hexp.
  destruct (verify_resume_unbound e2 req2 k h
              (mkLicense VNone (lic_expires_at L) (lic_plan L)) w1 eq_refl (Hf2 _) (Hf2 _))
    as (w2 & Hres & Hlic).
  unfold verify_resume in Hres. rewrite Hres. simpl. split; [done|].
  rewrite Hlic. cbn [LicenseDB.update_hwid]. by rewrite lookup_alter_eq, H1.
Qed.

Lemma reset_then_verify_rebinds_witness :
  fst (reset_hwid (sample_env morning no_fault) (sample_dict [("key", VStr "LIC-K")])
         (sample_world (VStr "device-A") "2999-01-01"))
    = Return (mkResponse 200 (PHwid VNone)) /\
  lic_hwid <$>
    licenses (snd (reset_hwid (sample_env morning no_fault)
                     (sample_dict [("key", VStr "LIC-K")])
                     (sample_world (VStr "device-A") "2999-01-01"))) !! "LIC-K"
    = Some VNone /\
  fst (verify_license (sample_env morning no_fault) (sample_verify "LIC-K" "device-B")
         (snd (reset_hwid (sample_env morning no_fault)
                 (sample_dict [("key", VStr "LIC-K")])
                 (sample_world (VStr "device-A") "2999-01-01"))))
    = Return (mkResponse 200 (PValid "2999-01-01" (VStr "pro"))) /\
  lic_hwid <$>
    licenses (snd (verify_license (sample_env morning no_fault)
                     (sample_verify "LIC-K" "device-B")
                     (snd (reset_hwid (sample_env morning no_fault)
                             (sample_dict [("key", VStr "LIC-K")])
                             (sample_world (VStr "device-A") "2999-01-01"))))) !! "LIC-K"
    = Some (VStr "device-B").
Proof.
  apply (reset_then_verify_rebinds (sample_env morning no_fault)
           (sample_dict [("key", VStr "LIC-K")])
           (sample_env morning no_fault) (sample_verify "LIC-K" "device-B")
           "LIC-K" (VStr "device-B") (sample_world (VStr "device-A") "2999-01-01")
           (sample_license (VStr "device-A") "2999-01-01")).
  - reflexivity.
  - eexists. split; reflexivity.
  - intros op. reflexivity.
  - eexists. split; [reflexivity|]. split; reflexivity.
  - intros op. reflexivity.
  - reflexivity.
  - reflexivity.
Defined.

(** X8: an authorised reset or delete for a key that has no license row
    is answered 404 "License key not found"; it is counted as an admin
    request and as an error, and the tables are unchanged. *)
Theorem admin_unknown_key e req key w :
  bearer_credential req = Some (admin_key e) ->
  KeyRequest req key ->
  no_faults e ->
  LicenseDB.row_of key (licenses w) = None ->
  reset_hwid e req w
    = (Return (error 404 "License key not found"), bump_error (admin_counted w)) /\
  delete_license e req w
    = (Return (error 404 "License key not found"), bump_error (admin_counted w)).
Proof.
  intros Hauth Hkey Hf Hnone.
  rewrite (reset_hwid_run e req key w Hauth Hkey (Hf _)).
  rewrite (delete_license_run e req key w Hauth Hkey (Hf _)).
  rewrite Hnone. unfold set_licenses, bump_error, admin_counted, set_stats. simpl.
  by rewrite update_hwid_absent, delete_row_absent.
Qed.

Lemma admin_unknown_key_witness :
  reset_hwid (sample_env morning no_fault) (sample_dict [("key", VStr "LIC-X")])
    (sample_world VNone "2999-01-01")
    = (Return (error 404 "License key not found"),
       bump_error (admin_counted (sample_world VNone "2999-01-01"))) /\
  delete_license (sample_env morning no_fault) (sample_dict [("key", VStr "LIC-X")])
    (sample_world VNone "2999-01-01")
    = (Return (error 404 "License key not found"),
       bump_error (admin_counted (sample_world VNone "2999-01-01"))).
Proof.
  apply (admin_unknown_key (sample_env morning no_fault)
           (sample_dict [("key", VStr "LIC-X")]) (VStr "LIC-X")).
  - reflexivity.
  - eexists. split; reflexivity.
  - intros op. reflexivity.
  - reflexivity.
Defined.

(** X9: an authorised delete of an existing license answers 200, removes
    that license only, and deletes no usage row: the usage log, the rows
    of the deleted key included, is as before. *)
Theorem delete_existing e req k w L :
  bearer_credential req = Some (admin_key e) ->
  KeyRequest req (VStr k) ->
  no_faults e ->
  licenses w !! k = Some L ->
  fst (delete_license e req w)
    = Return (mkResponse 200 (PMessage "successfully deleted")) /\
  licenses (snd (delete_license e req w)) !! k = None /\
  (forall k', k' <> k ->
     licenses (snd (delete_license e req w)) !! k' = licenses w !! k') /\
  usage_logs (snd (delete_license e req w)) = usage_logs w.
Proof.
  intros Hauth Hkey Hf HL.
  rewrite (delete_license_run e req (VStr k) w Hauth Hkey (Hf _)). simpl. rewrite HL.
  simpl. split_and!; [done| | |done].
  - apply lookup_delete_eq.
  - intros k' Hne. by apply lookup_delete_ne.
Qed.

Lemma delete_existing_witness :
  fst (delete_license (sample_env morning no_fault) (sample_dict [("key", VStr "LIC-K")])
         (sample_world VNone "2999-01-01"))
    = Return (mkResponse 200 (PMessage "successfully deleted")) /\
  licenses (snd (delete_license (sample_env morning no_fault)
                   (sample_dict [("key", VStr "LIC-K")])
                   (sample_world VNone "2999-01-01"))) !! "LIC-K" = None /\
  (forall k', k' <> "LIC-K" ->
     licenses (snd (delete_license (sample_env morning no_fault)
                      (sample_dict [("key", VStr "LIC-K")])
                      (sample_world VNone "2999-01-01"))) !! k'
     = licenses (sample_world VNone "2999-01-01") !! k') /\
  usage_logs (snd (delete_license (sample_env morning no_fault)
                     (sample_dict [("key", VStr "LIC-K")])
                     (sample_world VNone "2999-01-01")))
    = usage_logs (sample_world VNone "2999-01-01").
Proof.
  apply (delete_existing (sample_env morning no_fault)
           (sample_dict [("key", VStr "LIC-K")]) "LIC-K"
           (sample_world VNone "2999-01-01") (sample_license VNone "2999-01-01")).
  - reflexivity.
  - eexists. split; reflexivity.
  - intros op. reflexivity.
  - reflexivity.
Defined.

(** X10: once a license has been deleted, a verify of its key is answered
    401 "Key not found", whatever hardware id is supplied. *)
Theorem delete_then_verify e1 req1 e2 req2 k h w L :
  bearer_credential req1 = Some (admin_key e1) ->
  KeyRequest req1 (VStr k) ->
  no_faults e1 ->
  licenses w !! k = Some L ->
  VerifyRequest req2 (VStr k) h ->
  db_raises e2 OpGetLicense = false ->
  fst (verify_license e2 req2 (snd (delete_license e1 req1 w)))
    = Return (error 401 "Key not found").
Proof.
  intros Hauth Hkey Hf HL Hreq Hget.
  rewrite (verify_missing e2 req2 k h Hreq Hget); [reflexivity|].
  rewrite (delete_license_run e1 req1 (VStr k) w Hauth Hkey (Hf _)). simpl. rewrite HL.
  simpl. apply lookup_delete_eq.
Qed.

Lemma delete_then_verify_witness :
  fst (verify_license (sample_env morning no_fault) (sample_verify "LIC-K" "device-A")
         (snd (delete_license (sample_env morning no_fault)
                 (sample_dict [("key", VStr "LIC-K")])
                 (sample_world (VStr "device-A") "2999-01-01"))))
    = Return (error 401 "Key not found").
Proof.
  apply (delete_then_verify (sample_env morning no_fault)
           (sample_dict [("key", VStr "LIC-K")])
           (sample_env morning no_fault) (sample_verify "LIC-K" "device-A")
           "LIC-K" (VStr "device-A") (sample_world (VStr "device-A") "2999-01-01")
           (sample_license (VStr "device-A") "2999-01-01")).
  - reflexivity.
  - eexists. split; reflexivity.
  - intros op. reflexivity.
  - reflexivity.
  - eexists. split; [reflexivity|]. split; reflexivity.
  - reflexivity.
Defined.

(** What an authorised, well-formed issue request does. *)
Lemma generate_license_run e req d s hv w :
  bearer_credential req = Some (admin_key e) ->
  json req = Return (Some d) ->
  d !! "expires_at" = Some (VStr s) ->
  d !! "hwid" = Some hv ->
  db_raises e OpAddLicense = false ->
  generate_license e req w =
    match Strptime.strptime (nd_digit e) s with
    | None =>
        (Return (error 400 "Invalid date format. Use YYYY-MM-DD"),
         bump_error (admin_counted w))
    | Some _ =>
        match licenses w !! generate_license_key (rand e) with
        | Some _ =>
            (Return (error 500 "Failed to generate license"),
             bump_error (admin_counted w))
        | None =>
            (Return (mkResponse 200 (PGenerated (generate_license_key (rand e)) s)),
             set_licenses
               (insert (generate_license_key (rand e))
                  (mkLicense hv s (default (VStr "basic") (d !! "plan"))))
               (admin_counted w))
        end
    end.
Proof.
  intros Hauth Hj Hx Hh Hdb. unfold generate_license.
  rewrite (require_admin_key_accepts _ _ _ _ Hauth), admin_counted_eq.
  unfold generate_body. unfold_handlers. rewrite Hj.
  rewrite (falsy_lookup _ _ _ Hx), (contains_lookup _ _ _ Hx), (contains_lookup _ _ _ Hh).
  simpl. rewrite (subscript_lookup _ _ _ Hx).
  destruct (Strptime.strptime (nd_digit e) s); [|reflexivity].
  rewrite (subscript_lookup _ _ _ Hh), Hdb. simpl.
  by destruct (licenses w !! generate_license_key (rand e)).
Qed.

(** X11: an authorised issue whose [expires_at] is text that [strptime]
    rejects is answered 400 "Invalid date format. Use YYYY-MM-DD"; no
    license is stored, and the call counts as an admin request and an
    error. *)
Theorem generate_invalid_date e req d s hv w :
  bearer_credential req = Some (admin_key e) ->
  json req = Return (Some d) ->
  d !! "expires_at" = Some (VStr s) ->
  d !! "hwid" = Some hv ->
  db_raises e OpAddLicense = false ->
  Strptime.strptime (nd_digit e) s = None ->
  generate_license e req w
    = (Return (error 400 "Invalid date format. Use YYYY-MM-DD"),
       bump_error (admin_counted w)).
Proof.
  intros Hauth Hj Hx Hh Hdb Hparse.
  by rewrite (generate_license_run e req d s hv w Hauth Hj Hx Hh Hdb), Hparse.
Qed.

Lemma generate_invalid_date_witness :
  generate_license (sample_env morning no_fault)
    (sample_dict [("expires_at", VStr "01/01/2999"); ("hwid", VNone)]) empty_world
  = (Return (error 400 "Invalid date format. Use YYYY-MM-DD"),
     bump_error (admin_counted empty_world)).
Proof.
  apply (generate_invalid_date (sample_env morning no_fault)
           (sample_dict [("expires_at", VStr "01/01/2999"); ("hwid", VNone)])
           (list_to_map [("expires_at", VStr "01/01/2999"); ("hwid", VNone)])
           "01/01/2999" VNone).
  - reflexivity.
  - reflexivity.
  - reflexivity.
  - reflexivity.
  - reflexivity.
  - reflexivity.
Defined.

(** X12: when the generated key is already a stored license, an
    authorised issue is answered 500 "Failed to generate license"; the
    stored license is not overwritten, and the call counts as an admin
    request and an error. *)
Theorem generate_collision e req d s dt hv w L :
  bearer_credential req = Some (admin_key e) ->
  json req = Return (Some d) ->
  d !! "expires_at" = Some (VStr s) ->
  d !! "hwid" = Some hv ->
  db_raises e OpAddLicense = false ->
  Strptime.strptime (nd_digit e) s = Some dt ->
  licenses w !! generate_license_key (rand e) = Some L ->
  generate_license e req w
    = (Return (error 500 "Failed to generate license"), bump_error (admin_counted w)).
Proof.
  intros Hauth Hj Hx Hh Hdb Hparse HL.
  by rewrite (generate_license_run e req d s hv w Hauth Hj Hx Hh Hdb), Hparse, HL.
Qed.

Lemma generate_collision_witness :
  generate_license (sample_env morning no_fault) (sample_issue VNone)
    (mkWorld {[ "LIC-AAAAAAAAAAAAAAAAAAAAAA" := sample_license (VStr "device-A") "2030-01-01" ]}
       [] fresh_stats)
  = (Return (error 500 "Failed to generate license"),
     bump_error (admin_counted
       (mkWorld {[ "LIC-AAAAAAAAAAAAAAAAAAAAAA" := sample_license (VStr "device-A") "2030-01-01" ]}
          [] fresh_stats))).
Proof.
  apply (generate_collision (sample_env morning no_fault) (sample_issue VNone)
           (list_to_map [("expires_at", VStr "2999-01-01"); ("hwid", VNone);
                         ("plan", VStr "pro")])
           "2999-01-01" (mkDatetime 2999 1 1 0 0 0 0) VNone _
           (sample_license (VStr "device-A") "2030-01-01")).
  - reflexivity.
  - reflexivity.
  - reflexivity.
  - reflexivity.
  - reflexivity.
  - reflexivity.
  - reflexivity.
Defined.

(** X13: an authorised issue with a parseable date and a fresh key stores
    exactly one new license under the returned key, with the supplied
    hardware id and date as given and the plan ["basic"] when the body
    has no [plan]; every other license is as before. *)
Theorem generate_stores_license e req d s dt hv w :
  bearer_credential req = Some (admin_key e) ->
  json req = Return (Some d) ->
  d !! "expires_at" = Some (VStr s) ->
  d !! "hwid" = Some hv ->
  db_raises e OpAddLicense = false ->
  Strptime.strptime (nd_digit e) s = Some dt ->
  licenses w !! generate_license_key (rand e) = None ->
  fst (generate_license e req w)
    = Return (mkResponse 200 (PGenerated (generate_license_key (rand e)) s)) /\
  licenses (snd (generate_license e req w)) !! generate_license_key (rand e)
    = Some (mkLicense hv s (default (VStr "basic") (d !! "plan"))) /\
  (forall k', k' <> generate_license_key (rand e) ->
     licenses (snd (generate_license e req w)) !! k' = licenses w !! k').
Proof.
  intros Hauth Hj Hx Hh Hdb Hparse Hfree.
  rewrite (generate_license_run e req d s hv w Hauth Hj Hx Hh Hdb), Hparse, Hfree.
  simpl. split_and!; [done| |].
  - apply lookup_insert_eq.
  - intros k' Hne. by apply lookup_insert_ne.
Qed.

Lemma generate_stores_license_witness :
  fst (generate_license (sample_env morning no_fault)
         (sample_dict [("expires_at", VStr "2999-01-01"); ("hwid", VStr "device-A")])
         empty_world)
    = Return (mkResponse 200
                (PGenerated (generate_license_key (rand (sample_env morning no_fault)))
                   "2999-01-01")) /\
  licenses (snd (generate_license (sample_env morning no_fault)
                   (sample_dict [("expires_at", VStr "2999-01-01");
                                 ("hwid", VStr "device-A")])
                   empty_world))
      !! generate_license_key (rand (sample_env morning no_fault))
    = Some (mkLicense (VStr "device-A") "2999-01-01"
              (default (VStr "basic")
                 ((list_to_map [("expires_at", VStr "2999-01-01");
                                ("hwid", VStr "device-A")] : gmap string value)
                    !! "plan"))) /\
  (forall k', k' <> generate_license_key (rand (sample_env morning no_fault)) ->
     licenses (snd (generate_license (sample_env morning no_fault)
                      (sample_dict [("expires_at", VStr "2999-01-01");
                                    ("hwid", VStr "device-A")])
                      empty_world)) !! k'
     = licenses empty_world !! k').
Proof.
  apply (generate_stores_license (sample_env morning no_fault)
           (sample_dict [("expires_at", VStr "2999-01-01"); ("hwid", VStr "device-A")])
           (list_to_map [("expires_at", VStr "2999-01-01"); ("hwid", VStr "device-A")])
           "2999-01-01" (mkDatetime 2999 1 1 0 0 0 0) (VStr "device-A") empty_world).
  - reflexivity.
  - reflexivity.
  - reflexivity.
  - reflexivity.
  - reflexivity.
  - reflexivity.
  - reflexivity.
Defined.

(** ** What every request keeps *)

Ltac unfold_routes :=
  unfold serve, generate_license, delete_license, reset_hwid, get_key_info,
    require_admin_key, generate_body, delete_body, reset_body, key_info_body,
    LicenseDB.delete_license, LicenseDB.reset_hwid in *;
  unfold_handlers; unfold set_stats, set_licenses, set_usage_logs in *.

(** The effect of one request on the counters and on the usage log. *)
Lemma serve_counters r e req w :
  request_count (stats (snd (serve r e req w)))
    - verify_requests (stats (snd (serve r e req w)))
    - admin_requests (stats (snd (serve r e req w)))
  = request_count (stats w) - verify_requests (stats w) - admin_requests (stats w) /\
  request_count (stats w) <= request_count (stats (snd (serve r e req w))) /\
  verify_requests (stats w) <= verify_requests (stats (snd (serve r e req w))) /\
  admin_requests (stats w) <= admin_requests (stats (snd (serve r e req w))) /\
  error_count (stats w) <= error_count (stats (snd (serve r e req w))).
Proof.
  destruct r; unfold_routes;
    repeat (case_match; simplify_eq/=); split_and!; lia.
Qed.

Lemma serve_usage_logs r e req w :
  (usage_logs (snd (serve r e req w)) = usage_logs w /\
   verify_requests (stats (snd (serve r e req w))) = verify_requests (stats w)) \/
  (exists row, usage_logs (snd (serve r e req w)) = (usage_logs w ++ [row])%list /\
   verify_requests (stats (snd (serve r e req w))) = verify_requests (stats w) + 1).
Proof.
  destruct r; unfold_routes;
    repeat (case_match; simplify_eq/=);
    first [ by left | right; by eexists ].
Qed.

(** X14: from fresh counters, after any sequence of requests to the five
    routes the total request counter is the sum of the verify and admin
    counters, and no counter is negative. *)
Theorem counters_balance reqs (lic : gmap string License) (logs : list UsageLog) :
  request_count (stats (run_requests reqs (mkWorld lic logs fresh_stats)))
    = verify_requests (stats (run_requests reqs (mkWorld lic logs fresh_stats)))
      + admin_requests (stats (run_requests reqs (mkWorld lic logs fresh_stats))) /\
  0 <= verify_requests (stats (run_requests reqs (mkWorld lic logs fresh_stats))) /\
  0 <= admin_requests (stats (run_requests reqs (mkWorld lic logs fresh_stats))) /\
  0 <= error_count (stats (run_requests reqs (mkWorld lic logs fresh_stats))).
Proof.
  assert (H : forall w,
    request_count (stats (run_requests reqs w))
      - verify_requests (stats (run_requests reqs w))
      - admin_requests (stats (run_requests reqs w))
    = request_count (stats w) - verify_requests (stats w) - admin_requests (stats w) /\
    verify_requests (stats w) <= verify_requests (stats (run_requests reqs w)) /\
    admin_requests (stats w) <= admin_requests (stats (run_requests reqs w)) /\
    error_count (stats w) <= error_count (stats (run_requests reqs w))).
  { induction reqs as [|[[r e] req] reqs IH]; intros w; simpl; [lia|].
    pose proof (serve_counters r e req w).
    pose proof (IH (snd (serve r e req w))). lia. }
  specialize (H (mkWorld lic logs fresh_stats)). simpl in H. lia.
Qed.

(** X15: no request removes or rewrites a usage row: after any sequence
    of requests the earlier usage log is a prefix of the later one, and
    the number of rows added equals the growth of the verify counter. *)
Theorem usage_log_append_only reqs w :
  exists added,
    usage_logs (run_requests reqs w) = (usage_logs w ++ added)%list /\
    verify_requests (stats (run_requests reqs w))
      = verify_requests (stats w) + Z.of_nat (length added).
Proof.
  revert w. induction reqs as [|[[r e] req] reqs IH]; intros w; simpl.
  - exists []. rewrite app_nil_r. simpl. split; [done|lia].
  - destruct (IH (snd (serve r e req w))) as (added & Hlogs & Hcnt).
    destruct (serve_usage_logs r e req w) as [[Hl Hv]|(row & Hl & Hv)].
    + exists added. rewrite Hlogs, Hcnt, Hl, Hv. done.
    + exists (row :: added). rewrite Hlogs, Hcnt, Hl, Hv, <- app_assoc. simpl.
      split; [done|lia].
Qed.

Lemma expiries_parse_update u key hw t :
  expiries_parse u t -> expiries_parse u (LicenseDB.update_hwid key hw t).
Proof.
  destruct key as [|k]; [done|]. simpl. intros Ht k' L' HL'.
  apply lookup_alter_Some in HL' as [(-> & L & HL & ->)|[_ HL']]; simpl.
  - apply (Ht _ _ HL).
  - apply (Ht _ _ HL').
Qed.

Lemma expiries_parse_delete u key t :
  expiries_parse u t -> expiries_parse u (LicenseDB.delete_row key t).
Proof.
  destruct key as [|k]; [done|]. simpl. apply map_Forall_delete.
Qed.

Lemma expiries_parse_insert u k hv s dt plan t :
  Strptime.strptime u s = Some dt ->
  expiries_parse u t -> expiries_parse u (<[k := mkLicense hv s plan]> t).
Proof.
  intros Hs Ht. apply map_Forall_insert_2; [|done]. simpl. by rewrite Hs.
Qed.

Lemma serve_expiries_parse r e req w :
  expiries_parse (nd_digit e) (licenses w) ->
  expiries_parse (nd_digit e) (licenses (snd (serve r e req w))).
Proof.
  intros Hw. destruct r; unfold_routes;
    repeat (case_match; simplify_eq/=);
    eauto using expiries_parse_update, expiries_parse_delete, expiries_parse_insert.
Qed.

(** X16: with one Unicode digit table for the whole run, if every stored
    expiry date is accepted by [strptime], this is still so after any
    sequence of requests: no route stores a license whose date does not
    parse. *)
Theorem expiries_always_parse u reqs w :
  Forall (fun x : Route * Env * Request => nd_digit (snd (fst x)) = u) reqs ->
  expiries_parse u (licenses w) ->
  expiries_parse u (licenses (run_requests reqs w)).
Proof.
  intros Hu. revert w.
  induction Hu as [|[[r e] req] reqs He _ IH]; intros w Hw; simpl; [done|].
  simpl in He. subst u. apply IH. by apply serve_expiries_parse.
Qed.

Lemma expiries_always_parse_witness :
  expiries_parse sample_digits
    (licenses (run_requests
       [(RGenerate, sample_env morning no_fault, sample_issue VNone);
        (RVerify, sample_env morning no_fault,
         sample_verify "LIC-AAAAAAAAAAAAAAAAAAAAAA" "device-A")]
       (sample_world VNone "2030-06-30"))).
Proof.
  apply (expiries_always_parse sample_digits
           [(RGenerate, sample_env morning no_fault, sample_issue VNone);
            (RVerify, sample_env morning no_fault,
             sample_verify "LIC-AAAAAAAAAAAAAAAAAAAAAA" "device-A")]
           (sample_world VNone "2030-06-30")).
  - repeat constructor.
  - intros k L HL. unfold sample_world in HL. cbn [licenses] in HL.
    apply lookup_singleton_Some in HL as [_ <-].
    eexists. reflexivity.
Defined.

Lemma terms_kept_update key hw (t : gmap string License) k L L' :
  t !! k = Some L ->
  LicenseDB.update_hwid key hw t !! k = Some L' ->
  lic_expires_at L' = lic_expires_at L /\ lic_plan L' = lic_plan L.
Proof.
  destruct key as [|k0]; simpl; intros HL HL'; [by simplify_eq|].
  apply lookup_alter_Some in HL' as [(-> & L0 & HL0 & ->)|[_ HL']]; by simplify_eq.
Qed.

Lemma terms_kept_delete key (t : gmap string License) k L L' :
  t !! k = Some L ->
  LicenseDB.delete_row key t !! k = Some L' ->
  lic_expires_at L' = lic_expires_at L /\ lic_plan L' = lic_plan L.
Proof.
  destruct key as [|k0]; simpl; intros HL HL'; [by simplify_eq|].
  apply lookup_delete_Some in HL' as [_ HL']. by simplify_eq.
Qed.

Lemma terms_kept_insert k0 L0 (t : gmap string License) k L L' :
  t !! k0 = None ->
  t !! k = Some L ->
  <[k0 := L0]> t !! k = Some L' ->
  lic_expires_at L' = lic_expires_at L /\ lic_plan L' = lic_plan L.
Proof.
  intros Hfree HL HL'. destruct (decide (k0 = k)) as [->|Hne]; [congruence|].
  rewrite lookup_insert_ne in HL' by done. by simplify_eq.
Qed.

(** X17: no single request changes the expiry date or the plan of a
    license: a license that is stored before and after a request has the
    same [expires_at] and [plan]. *)
Theorem serve_keeps_terms r e req w k L L' :
  licenses w !! k = Some L ->
  licenses (snd (serve r e req w)) !! k = Some L' ->
  lic_expires_at L' = lic_expires_at L /\ lic_plan L' = lic_plan L.
Proof.
  intros HL. destruct r; unfold_routes;
    repeat (case_match; simplify_eq/=); intros HL';
    eauto using terms_kept_update, terms_kept_delete, terms_kept_insert;
    by simplify_eq.
Qed.

Lemma serve_keeps_terms_witness :
  lic_expires_at (sample_license (VStr "device-A") "2999-01-01")
    = lic_expires_at (sample_license VNone "2999-01-01") /\
  lic_plan (sample_license (VStr "device-A") "2999-01-01")
    = lic_plan (sample_license VNone "2999-01-01").
Proof.
  apply (serve_keeps_terms RVerify (sample_env morning no_fault)
           (sample_verify "LIC-K" "device-A") (sample_world VNone "2999-01-01") "LIC-K").
  - reflexivity.
  - reflexivity.
Defined.

(** ** Key info *)

(** X18: a key-info request, authorised or not, well-formed or not, never
    changes the license table, the usage log or the verify counter. *)
Theorem key_info_read_only e req w :
  licenses (snd (get_key_info e req w)) = licenses w /\
  usage_logs (snd (get_key_info e req w)) = usage_logs w /\
  verify_requests (stats (snd (get_key_info e req w))) = verify_requests (stats w).
Proof.
  unfold_routes. repeat (case_match; simplify_eq/=); by split_and!.
Qed.

Lemma leb_trans (a b c : string) :
  String.leb a b = true -> String.leb b c = true -> String.leb a c = true.
Proof.
  revert b c. induction a as [|x a IH]; intros [|y b] [|z c];
    unfold String.leb; simpl; try done.
  unfold Ascii.compare.
  destruct (N.compare_spec (N_of_ascii x) (N_of_ascii y)) as [Hxy|Hxy|Hxy];
    destruct (N.compare_spec (N_of_ascii y) (N_of_ascii z)) as [Hyz|Hyz|Hyz];
    destruct (N.compare_spec (N_of_ascii x) (N_of_ascii z)) as [Hxz|Hxz|Hxz];
    try done; try lia.
  apply IH.
Qed.

Lemma leb_refl (a : string) : String.leb a a = true.
Proof. destruct (String.leb_total a a); done. Qed.

Lemma str_min_le a b : String.leb (str_min a b) a = true /\ String.leb (str_min a b) b = true.
Proof.
  unfold str_min. destruct (String.leb a b) eqn:Hab.
  - split; [apply leb_refl|done].
  - split; [|apply leb_refl]. destruct (String.leb_total a b); congruence.
Qed.

Lemma str_max_ge a b : String.leb a (str_max a b) = true /\ String.leb b (str_max a b) = true.
Proof.
  unfold str_max. destruct (String.leb a b) eqn:Hab.
  - split; [done|apply leb_refl].
  - split; [apply leb_refl|]. destruct (String.leb_total a b); congruence.
Qed.

Lemma fold_min_lower l : forall a,
  String.leb (fold_left str_min l a) a = true /\
  Forall (fun x => String.leb (fold_left str_min l a) x = true) l.
Proof.
  induction l as [|x l IH]; intros a; simpl; [split; [apply leb_refl|constructor]|].
  destruct (IH (str_min a x)) as [H1 H2]. destruct (str_min_le a x) as [Ha Hx].
  split; [by eapply leb_trans|]. constructor; [by eapply leb_trans|done].
Qed.

Lemma fold_max_upper l : forall a,
  String.leb a (fold_left str_max l a) = true /\
  Forall (fun x => String.leb x (fold_left str_max l a) = true) l.
Proof.
  induction l as [|x l IH]; intros a; simpl; [split; [apply leb_refl|constructor]|].
  destruct (IH (str_max a x)) as [H1 H2]. destruct (str_max_ge a x) as [Ha Hx].
  split; [by eapply leb_trans|]. constructor; [by eapply leb_trans|done].
Qed.

Lemma key_info_run e req k w :
  bearer_credential req = Some (admin_key e) ->
  arg_key req = Some k ->
  k <> "" ->
  db_raises e OpGetUsageInfo = false ->
  get_key_info e req w =
    (Return
       (match rows_of k w with
        | [] => mkResponse 200 (PMessage "no key info")
        | r :: rs =>
            mkResponse 200
              (PUsage (mkUsageInfo (log_ip_address (max_row r rs))
                         (log_user_agent (max_row r rs)) (log_hwid (max_row r rs))
                         (log_geo_country (max_row r rs))
                         (fold_left str_min (map log_timestamp rs) (log_timestamp r))
                         (fold_left str_max (map log_timestamp rs) (log_timestamp r))
                         (Z.of_nat (length (r :: rs)))))
        end),
     admin_counted w).
Proof.
  intros Hauth Hkey Hne Hdb. unfold get_key_info.
  rewrite (require_admin_key_accepts _ _ _ _ Hauth), admin_counted_eq.
  unfold key_info_body. rewrite Hkey. destruct k as [|c k]; [done|].
  unfold_handlers. rewrite Hdb. simpl. unfold rows_of. simpl.
  by destruct (filter _ (usage_logs w)).
Qed.

(** X19: for a key that has usage rows, an authorised key-info request
    answers 200 with the aggregate: [login_count] is the number of rows
    of the key, and every row's timestamp lies between [first_login] and
    [last_login] in text order. *)
Theorem key_info_reports e req k w :
  bearer_credential req = Some (admin_key e) ->
  arg_key req = Some k ->
  k <> "" ->
  db_raises e OpGetUsageInfo = false ->
  rows_of k w <> [] ->
  exists info,
    fst (get_key_info e req w) = Return (mkResponse 200 (PUsage info)) /\
    login_count info = Z.of_nat (length (rows_of k w)) /\
    Forall (fun r => String.leb (first_login info) (log_timestamp r) = true /\
                     String.leb (log_timestamp r) (last_login info) = true)
           (rows_of k w).
Proof.
  intros Hauth Hkey Hne Hdb Hrows.
  rewrite (key_info_run e req k w Hauth Hkey Hne Hdb).
  destruct (rows_of k w) as [|r rs]; [done|]. simpl fst.
  eexists. split; [reflexivity|]. split; [reflexivity|]. cbn [first_login last_login].
  destruct (fold_min_lower (map log_timestamp rs) (log_timestamp r)) as [Hm1 Hm2].
  destruct (fold_max_upper (map log_timestamp rs) (log_timestamp r)) as [HM1 HM2].
  constructor; [done|].
  rewrite Forall_map in Hm2, HM2.
  rewrite Forall_forall in *. intros row Hrow. split; eauto.
Qed.

Lemma key_info_reports_witness :
  exists info,
    fst (get_key_info (sample_env morning no_fault)
           (sample_admin (Some "Bearer s3cret") (Some "LIC-K"))
           (snd (verify_license (sample_env morning no_fault)
                   (sample_verify "LIC-K" "device-A") (sample_world VNone "2999-01-01"))))
      = Return (mkResponse 200 (PUsage info)) /\
    login_count info
      = Z.of_nat (length (rows_of "LIC-K"
           (snd (verify_license (sample_env morning no_fault)
                   (sample_verify "LIC-K" "device-A") (sample_world VNone "2999-01-01"))))) /\
    Forall (fun r => String.leb (first_login info) (log_timestamp r) = true /\
                     String.leb (log_timestamp r) (last_login info) = true)
      (rows_of "LIC-K"
         (snd (verify_license (sample_env morning no_fault)
                 (sample_verify "LIC-K" "device-A") (sample_world VNone "2999-01-01")))).
Proof.
  apply (key_info_reports (sample_env morning no_fault)
           (sample_admin (Some "Bearer s3cret") (Some "LIC-K")) "LIC-K").
  - reflexivity.
  - reflexivity.
  - discriminate.
  - reflexivity.
  - vm_compute. discriminate.
Defined.

Lemma verify_success_row e req k h w resp :
  VerifyRequest req (VStr k) h ->
  fst (verify_license e req w) = Return resp ->
  status resp = 200 ->
  exists row,
    usage_logs (snd (verify_license e req w)) = (usage_logs w ++ [row])%list /\
    log_license_key row = VStr k.
Proof.
  intros (d & Hj & Hk & Hh). unfold_handlers. rewrite Hj.
  rewrite (falsy_lookup _ _ _ Hk), (contains_lookup _ _ _ Hk), (contains_lookup _ _ _ Hh).
  simpl. rewrite (subscript_lookup _ _ _ Hk), (subscript_lookup _ _ _ Hh).
  unfold set_stats, set_licenses, set_usage_logs.
  repeat (case_match; simplify_eq/=); intros Hr Hs; simplify_eq/=;
    by eexists.
Qed.

(** X20: after a verify of a key has answered [valid], an authorised
    key-info request for that key answers with the aggregate, never with
    "no key info", and its [login_count] is one more than the number of
    rows the key had before. *)
Theorem verify_then_key_info e1 req1 e2 req2 k h w resp :
  VerifyRequest req1 (VStr k) h ->
  fst (verify_license e1 req1 w) = Return resp ->
  status resp = 200 ->
  bearer_credential req2 = Some (admin_key e2) ->
  arg_key req2 = Some k ->
  k <> "" ->
  db_raises e2 OpGetUsageInfo = false ->
  exists info,
    fst (get_key_info e2 req2 (snd (verify_license e1 req1 w)))
      = Return (mkResponse 200 (PUsage info)) /\
    login_count info = Z.of_nat (length (rows_of k w)) + 1.
Proof.
  intros Hreq Hresp Hst Hauth Hkey Hne Hdb.
  destruct (verify_success_row e1 req1 k h w resp Hreq Hresp Hst) as (row & Hlogs & Hrow).
  rewrite (key_info_run e2 req2 k _ Hauth Hkey Hne Hdb).
  assert (Hrows : rows_of k (snd (verify_license e1 req1 w)) = (rows_of k w ++ [row])%list).
  { unfold rows_of. rewrite Hlogs, filter_app, filter_cons, filter_nil.
    by destruct (decide (log_license_key row = VStr k)). }
  rewrite Hrows. destruct (rows_of k w) as [|r rs]; simpl.
  - by eexists.
  - eexists. split; [reflexivity|]. simpl. rewrite length_app. simpl. lia.
Qed.

Lemma verify_then_key_info_witness :
  exists info,
    fst (get_key_info (sample_env morning no_fault)
           (sample_admin (Some "Bearer s3cret") (Some "LIC-K"))
           (snd (verify_license (sample_env morning no_fault)
                   (sample_verify "LIC-K" "device-A") (sample_world VNone "2999-01-01"))))
      = Return (mkResponse 200 (PUsage info)) /\
    login_count info
      = Z.of_nat (length (rows_of "LIC-K" (sample_world VNone "2999-01-01"))) + 1.
Proof.
  apply (verify_then_key_info (sample_env morning no_fault)
           (sample_verify "LIC-K" "device-A") (sample_env morning no_fault)
           (sample_admin (Some "Bearer s3cret") (Some "LIC-K")) "LIC-K"
           (VStr "device-A") (sample_world VNone "2999-01-01")
           (mkResponse 200 (PValid "2999-01-01" (VStr "pro")))).
  - eexists. split; [reflexivity|]. split; reflexivity.
  - reflexivity.
  - reflexivity.
  - reflexivity.
  - reflexivity.
  - discriminate.
  - reflexivity.
Defined.

(** ** Dates *)

Lemma lex_gt_trans (a : list Z) : forall b c,
  length a = length b -> length b = length c ->
  lex_gt c a = true \/ c = a ->
  lex_gt a b = true ->
  lex_gt c b = true.
Proof.
  induction a as [|x a IH]; intros [|y b] [|z c] Hab Hbc Hca Hgt;
    simpl in *; try done.
  destruct Hca as [Hca|Heq]; [|by simplify_eq].
  apply orb_true_iff in Hca, Hgt. apply orb_true_iff.
  destruct Hca as [Hca|Hca], Hgt as [Hgt|Hgt];
    rewrite ?andb_true_iff, ?Z.ltb_lt, ?Z.eqb_eq in *.
  - left. lia.
  - left. lia.
  - left. lia.
  - destruct Hca as [-> Hca], Hgt as [-> Hgt].
    right. split; [done|]. apply (IH b c); [lia|lia|by left|done].
Qed.

(** X21: expiry is permanent: once [is_expired] holds for a stored date
    at some time, it holds at every later or equal time. *)
Theorem expired_stays_expired u now later expires_at :
  datetime_ge later now = true ->
  is_expired u now expires_at = true ->
  is_expired u later expires_at = true.
Proof.
  unfold is_expired, datetime_ge, datetime_gt. intros Hge Hexp.
  destruct (Strptime.strptime u expires_at) as [dt|]; [|done].
  apply (lex_gt_trans (dt_fields now)); [done|done| |done].
  apply orb_true_iff in Hge as [Hge|Hge]; [by left|].
  right. by apply bool_decide_eq_true in Hge.
Qed.

Lemma expired_stays_expired_witness :
  is_expired sample_digits (mkDatetime 2025 6 1 18 0 0 0) "2025-06-01" = true.
Proof.
  apply (expired_stays_expired sample_digits morning (mkDatetime 2025 6 1 18 0 0 0)
           "2025-06-01").
  - reflexivity.
  - reflexivity.
Defined.

(** X22: whatever [strptime] accepts for ["%Y-%m-%d"] is a real calendar
    date at midnight: the year is in 1..9999, the month in 1..12, the day
    exists in that month of that year, the time fields are zero, the
    text has 8 to 10 characters, and it reads as the same date field by
    field. *)
Theorem strptime_sound u s dt :
  Strptime.strptime u s = Some dt ->
  1 <= year dt <= 9999 /\
  1 <= month dt <= 12 /\
  1 <= day dt <= days_in_month (year dt) (month dt) /\
  hour dt = 0 /\ minute dt = 0 /\ second dt = 0 /\ microsecond dt = 0 /\
  DateText.read u s = Some dt /\
  exists cps,
    Utf8.decode (list_ascii_of_string s) = Some cps /\ (8 <= length cps <= 10)%nat.
Proof.
  intros H. pose proof H as Hread. rewrite strptime_read in Hread.
  unfold Strptime.strptime in H.
  destruct (Utf8.decode (list_ascii_of_string s)) as [cps|] eqn:Hdec; [|done].
  destruct (Strptime.matches u cps) as [|[[[y m] d] r] rest] eqn:Hm; [done|].
  destruct r; [|done].
  destruct (valid_date y m d) eqn:Hv; [|done]. simplify_eq/=.
  unfold valid_date in Hv. rewrite !andb_true_iff, !Z.leb_le in Hv.
  assert (Hin : (y, m, d, []) ∈ Strptime.matches u cps) by (rewrite Hm; left).
  apply matches_sound in Hin as (Y & M & D & -> & _ & _ & _ & _ & HY & HM & HD).
  split_and!; try lia; try done.
  eexists. split; [reflexivity|]. rewrite length_app. cbn [length].
  rewrite length_app. cbn [length]. lia.
Qed.

Lemma strptime_sound_witness :
  1 <= year (mkDatetime 2024 2 29 0 0 0 0) <= 9999 /\
  1 <= month (mkDatetime 2024 2 29 0 0 0 0) <= 12 /\
  1 <= day (mkDatetime 2024 2 29 0 0 0 0)
    <= days_in_month (year (mkDatetime 2024 2 29 0 0 0 0))
         (month (mkDatetime 2024 2 29 0 0 0 0)) /\
  hour (mkDatetime 2024 2 29 0 0 0 0) = 0 /\
  minute (mkDatetime 2024 2 29 0 0 0 0) = 0 /\
  second (mkDatetime 2024 2 29 0 0 0 0) = 0 /\
  microsecond (mkDatetime 2024 2 29 0 0 0 0) = 0 /\
  DateText.read sample_digits "٢٠٢٤-2-29" = Some (mkDatetime 2024 2 29 0 0 0 0) /\
  exists cps,
    Utf8.decode (list_ascii_of_string "٢٠٢٤-2-29") = Some cps /\
    (8 <= length cps <= 10)%nat.
Proof.
  apply (strptime_sound sample_digits "٢٠٢٤-2-29" (mkDatetime 2024 2 29 0 0 0 0)).
  reflexivity.
Defined.

(** ** [split] and the bearer header *)

(** X23: [split] cuts a string at every separator and nowhere else:
    joining the fields with the separator gives the string back, no field
    contains the separator, and there is at least one field. *)
Theorem split_join sep s :
  join sep (Str.split sep s) = s /\
  Forall (fun field => occurs sep field = false) (Str.split sep s) /\
  Str.split sep s <> [].
Proof.
  induction s as [|c s (IHj & IHf & IHn)]; simpl; [by repeat constructor|].
  destruct (Ascii.eqb c sep) eqn:Hc.
  - apply Ascii.eqb_eq in Hc as ->.
    destruct (Str.split sep s) as [|w ws] eqn:Hs; [done|].
    split_and!; [|by constructor|done].
    change (join sep ("" :: w :: ws)) with (String sep (join sep (w :: ws))).
    by rewrite IHj.
  - destruct (Str.split sep s) as [|w ws] eqn:Hs; [done|].
    apply Forall_cons in IHf as [Hw Hws].
    split_and!; [|constructor; [simpl; by rewrite Hc|done]|done].
    rewrite <- IHj. destruct ws; reflexivity.
Qed.

Lemma split_no_sep sep k :
  occurs sep k = false -> Str.split sep k = [k].
Proof.
  induction k as [|c k IH]; simpl; [done|].
  intros H. apply orb_false_iff in H as [Hc Hk].
  by rewrite Hc, (IH Hk).
Qed.

Lemma split_app_sep sep k rest :
  occurs sep k = false ->
  Str.split sep (k ++ String sep rest) = k :: Str.split sep rest.
Proof.
  induction k as [|c k IH]; intros H.
  - change ("" ++ String sep rest) with (String sep rest). simpl.
    by rewrite Ascii.eqb_refl.
  - change (String c k ++ String sep rest) with (String c (k ++ String sep rest)).
    simpl in *. apply orb_false_iff in H as [Hc Hk].
    by rewrite Hc, (IH Hk).
Qed.

Lemma prefix_append p s : String.prefix p (p ++ s) = true.
Proof.
  induction p as [|c p IH]; [by destruct s|].
  change (String c p ++ s) with (String c (p ++ s)). simpl.
  by destruct (ascii_dec c c).
Qed.

(** X24: [require_admin_key] compares only the second space-separated
    field of the header: a header ["Bearer <admin key>"], alone or
    followed by a space and any further text, is accepted; the wrapped
    handler then runs after one admin request has been counted. *)
Theorem bearer_extra_fields_accepted e req tail (f : Handler Response) w :
  occurs " " (admin_key e) = false ->
  tail = "" \/ (exists rest, tail = String " " rest) ->
  authorization req = Some ("Bearer " ++ admin_key e ++ tail) ->
  require_admin_key e req f w = f (admin_counted w).
Proof.
  intros Hkey Htail Hauth.
  rewrite <- admin_counted_eq. apply require_admin_key_accepts.
  unfold bearer_credential, Str.startswith. rewrite Hauth, prefix_append.
  change ("Bearer " ++ admin_key e ++ tail)
    with ("Bearer" ++ String " " (admin_key e ++ tail)).
  rewrite split_app_sep by reflexivity.
  destruct Htail as [->|[rest ->]].
  - replace (admin_key e ++ "") with (admin_key e)
      by (clear; induction (admin_key e) as [|c k IH]; [done|];
          change (String c k ++ "") with (String c (k ++ "")); by rewrite <- IH).
    by rewrite split_no_sep.
  - by rewrite split_app_sep.
Qed.

Lemma bearer_extra_fields_accepted_witness :
  require_admin_key (sample_env morning no_fault)
    (sample_admin (Some "Bearer s3cret and more") (Some "LIC-K"))
    (try_except (key_info_body (sample_env morning no_fault)
                   (sample_admin (Some "Bearer s3cret and more") (Some "LIC-K")))
                internal_error)
    (sample_world VNone "2999-01-01")
  = try_except (key_info_body (sample_env morning no_fault)
                  (sample_admin (Some "Bearer s3cret and more") (Some "LIC-K")))
               internal_error
      (admin_counted (sample_world VNone "2999-01-01")).
Proof.
  apply (bearer_extra_fields_accepted (sample_env morning no_fault)
           (sample_admin (Some "Bearer s3cret and more") (Some "LIC-K"))
           " and more").
  - reflexivity.
  - right. eexists. reflexivity.
  - reflexivity.
Defined.

(** ** URL-safe tokens *)

Lemma list_ind3 {A} (P : list A -> Prop) :
  P [] -> (forall a, P [a]) -> (forall a b, P [a; b]) ->
  (forall a b c l, P l -> P (a :: b :: c :: l)) ->
  forall l, P l.
Proof.
  intros H0 H1 H2 H3 l.
  assert (H : P l /\ (forall a, P (a :: l)) /\ (forall a b, P (a :: b :: l))).
  { induction l as [|x l (IH0 & IH1 & IH2)]; [by split_and!|].
    split_and!; [apply IH1|intros a; apply IH2|intros a b; by apply H3]. }
  apply H.
Qed.

Lemma sextet_in_alphabet n :
  (n < 64)%N -> In (Base64.sextet n) Base64.urlsafe_alphabet.
Proof.
  intros Hn. unfold Base64.sextet. apply nth_In.
  change (length Base64.urlsafe_alphabet) with 64%nat. lia.
Qed.

Lemma sextet_inj n m :
  (n < 64)%N -> (m < 64)%N -> Base64.sextet n = Base64.sextet m -> n = m.
Proof.
  intros Hn Hm Heq.
  assert (Hnd : NoDup Base64.urlsafe_alphabet)
    by (apply (bool_decide_unpack _); by vm_compute).
  assert (Hlen : length Base64.urlsafe_alphabet = 64%nat) by reflexivity.
  destruct (lookup_lt_is_Some_2 Base64.urlsafe_alphabet (N.to_nat n)) as [x Hx]; [lia|].
  destruct (lookup_lt_is_Some_2 Base64.urlsafe_alphabet (N.to_nat m)) as [y Hy]; [lia|].
  unfold Base64.sextet in Heq.
  rewrite (nth_lookup_Some _ _ "="%char _ Hx), (nth_lookup_Some _ _ "="%char _ Hy) in Heq.
  subst y. pose proof (NoDup_lookup _ _ _ _ Hnd Hx Hy). lia.
Qed.

Lemma rstrip_repeat c n : Str.rstrip c (repeat c n) = [].
Proof.
  induction n as [|n IH]; [done|]. simpl. rewrite IH. by rewrite Ascii.eqb_refl.
Qed.

Lemma rstrip_padding c body n :
  Forall (fun x => x <> c) body -> Str.rstrip c (body ++ repeat c n) = body.
Proof.
  induction 1 as [|x body Hx _ IH]; [apply rstrip_repeat|].
  change ((x :: body) ++ repeat c n)%list with (x :: (body ++ repeat c n))%list.
  by rewrite rstrip_keep, IH.
Qed.

(** The encoding is its unpadded part followed by the padding. *)
Lemma b64encode_shape bs :
  exists body,
    Base64.urlsafe_b64encode bs = (body ++ repeat "="%char (pad_len (length bs)))%list /\
    Forall (fun c => exists n, (n < 64)%N /\ c = Base64.sextet n) body /\
    length body = ((4 * length bs + 2) / 3)%nat.
Proof.
  induction bs as [|a|a b|a b c bs (body & Henc & Hall & Hlen)] using list_ind3.
  - exists []. by split_and!.
  - eexists [_; _]. split_and!; [reflexivity| |reflexivity].
    repeat constructor; eexists; (split; [|reflexivity]); auto with sextet.
  - eexists [_; _; _]. split_and!; [reflexivity| |reflexivity].
    repeat constructor; eexists; (split; [|reflexivity]); auto with sextet.
    pose proof (index_mid2 b Byte.x00) as H. cbn [Byte.to_N] in H.
    change (0 / 64)%N with 0%N in H. by rewrite N.add_0_r in H.
  - eexists (_ :: _ :: _ :: _ :: body). cbn [Base64.urlsafe_b64encode].
    rewrite Henc. split_and!; [reflexivity| |].
    + repeat (constructor; [eexists; (split; [|reflexivity]); auto with sextet|]).
      done.
    + cbn [length]. rewrite Hlen.
      replace (4 * S (S (S (length bs))) + 2)%nat
        with ((4 * length bs + 2) + 4 * 3)%nat by lia.
      rewrite Nat.div_add by lia. lia.
Qed.

Lemma token_urlsafe_body rand n :
  exists body,
    token_urlsafe rand n = body /\
    Base64.urlsafe_b64encode (token_bytes rand n)
      = (body ++ repeat "="%char (pad_len n))%list /\
    Forall (fun c => exists i, (i < 64)%N /\ c = Base64.sextet i) body /\
    length body = ((4 * n + 2) / 3)%nat.
Proof.
  destruct (b64encode_shape (token_bytes rand n)) as (body & Henc & Hall & Hlen).
  assert (Hn : length (token_bytes rand n) = n)
    by (unfold token_bytes; by rewrite length_map, length_seq).
  rewrite Hn in *. exists body. split_and!; [|done|done|done].
  unfold token_urlsafe. rewrite Henc. apply rstrip_padding.
  eapply Forall_impl; [exact Hall|]. intros c (i & Hi & ->).
  by apply sextet_upper.
Qed.

(** X25: [secrets.token_urlsafe(n)] is text over the 64 URL-safe base64
    characters, so without padding or spaces, of length [(4 n + 2) / 3]:
    22 characters for the 16 bytes of a license key and 43 for the 32
    bytes of the admin key. *)
Theorem token_urlsafe_chars rand n :
  Forall (fun c => In c Base64.urlsafe_alphabet) (token_urlsafe rand n) /\
  length (token_urlsafe rand n) = ((4 * n + 2) / 3)%nat /\
  ((4 * 16 + 2) / 3 = 22)%nat /\ ((4 * 32 + 2) / 3 = 43)%nat.
Proof.
  destruct (token_urlsafe_body rand n) as (body & -> & _ & Hall & Hlen).
  split_and!; [|done|done|done].
  eapply Forall_impl; [exact Hall|]. intros c (i & Hi & ->).
  by apply sextet_in_alphabet.
Qed.

Lemma byte_to_N_inj (a b : Byte.byte) : Byte.to_N a = Byte.to_N b -> a = b.
Proof.
  intros H. pose proof (Byte.of_to_N a) as Ha. rewrite H, Byte.of_to_N in Ha.
  by injection Ha.
Qed.

(** Bytes are determined by the quotients and remainders that the
    encoding uses. *)
Lemma split4_inj (x x' : N) :
  (x / 4 = x' / 4 -> x mod 4 = x' mod 4 -> x = x')%N.
Proof.
  intros Hq Hr. rewrite (N.Div0.div_mod x 4), (N.Div0.div_mod x' 4). by rewrite Hq, Hr.
Qed.

Lemma split16_inj (x x' : N) :
  (x / 16 = x' / 16 -> x mod 16 = x' mod 16 -> x = x')%N.
Proof.
  intros Hq Hr. rewrite (N.Div0.div_mod x 16), (N.Div0.div_mod x' 16). by rewrite Hq, Hr.
Qed.

Lemma split64_inj (x x' : N) :
  (x / 64 = x' / 64 -> x mod 64 = x' mod 64 -> x = x')%N.
Proof.
  intros Hq Hr. rewrite (N.Div0.div_mod x 64), (N.Div0.div_mod x' 64). by rewrite Hq, Hr.
Qed.

Lemma mixed_inj (k r q r' q' : N) :
  (q < k -> q' < k -> r * k + q = r' * k + q' -> r = r' /\ q = q')%N.
Proof.
  intros Hq Hq' H. assert (Hk : k <> 0%N) by lia.
  assert (Hr : r = r').
  { apply (f_equal (fun x => (x / k)%N)) in H.
    rewrite !N.div_add_l, !N.div_small in H by done. lia. }
  subst r'. split; [done|lia].
Qed.

Lemma first_pair_inj (a a' b b' : Byte.byte) :
  Base64.sextet (Byte.to_N a / 4) = Base64.sextet (Byte.to_N a' / 4) ->
  Base64.sextet (Byte.to_N a mod 4 * 16 + Byte.to_N b / 16)
    = Base64.sextet (Byte.to_N a' mod 4 * 16 + Byte.to_N b' / 16) ->
  a = a' /\ (Byte.to_N b / 16 = Byte.to_N b' / 16)%N.
Proof.
  intros H1 H2.
  apply sextet_inj in H1; auto with sextet.
  apply sextet_inj in H2; auto with sextet.
  pose proof (Byte.to_N_bounded b). pose proof (Byte.to_N_bounded b').
  apply mixed_inj in H2 as [Hr Hq];
    [|apply N.Div0.div_lt_upper_bound; lia|apply N.Div0.div_lt_upper_bound; lia].
  split; [|done]. apply byte_to_N_inj. by apply split4_inj.
Qed.

Lemma second_pair_inj (b b' c c' : Byte.byte) :
  (Byte.to_N b / 16 = Byte.to_N b' / 16)%N ->
  Base64.sextet (Byte.to_N b mod 16 * 4 + Byte.to_N c / 64)
    = Base64.sextet (Byte.to_N b' mod 16 * 4 + Byte.to_N c' / 64) ->
  b = b' /\ (Byte.to_N c / 64 = Byte.to_N c' / 64)%N.
Proof.
  intros Hq H.
  apply sextet_inj in H; auto with sextet.
  pose proof (Byte.to_N_bounded c). pose proof (Byte.to_N_bounded c').
  apply mixed_inj in H as [Hr Hq'];
    [|apply N.Div0.div_lt_upper_bound; lia|apply N.Div0.div_lt_upper_bound; lia].
  split; [|done]. apply byte_to_N_inj. by apply split16_inj.
Qed.

Lemma index_pad2 (y : Byte.byte) : (Byte.to_N y mod 16 * 4 < 64)%N.
Proof.
  assert (Byte.to_N y mod 16 < 16)%N by (apply N.mod_upper_bound; lia).
  generalize dependent (Byte.to_N y mod 16)%N. intros. lia.
Qed.

#[local] Hint Resolve index_pad2 : sextet.

Ltac sextet_absurd :=
  match goal with
  | H : Base64.sextet _ = "="%char |- _ =>
      exfalso; revert H; apply sextet_upper; auto with sextet
  | H : "="%char = Base64.sextet _ |- _ =>
      exfalso; symmetry in H; revert H; apply sextet_upper; auto with sextet
  end.

Lemma b64encode_inj x : forall y,
  Base64.urlsafe_b64encode x = Base64.urlsafe_b64encode y -> x = y.
Proof.
  induction x as [|a|a b|a b c x IH] using list_ind3;
    intros [|a' [|b' [|c' y]]] H; cbn [Base64.urlsafe_b64encode] in H;
    try discriminate; simplify_eq; try sextet_absurd.
  - reflexivity.
  - match goal with
    | H1 : Base64.sextet (Byte.to_N a / 4) = _,
      H2 : Base64.sextet (Byte.to_N a mod 4 * 16) = _ |- _ =>
        apply sextet_inj in H1; auto with sextet;
        apply sextet_inj in H2; auto with sextet;
        f_equal; apply byte_to_N_inj, split4_inj; [done|lia]
    end.
  - match goal with
    | H1 : Base64.sextet (Byte.to_N a / 4) = _,
      H2 : Base64.sextet (Byte.to_N a mod 4 * 16 + _) = _,
      H3 : Base64.sextet (Byte.to_N b mod 16 * 4) = _ |- _ =>
        destruct (first_pair_inj _ _ _ _ H1 H2) as [-> Hq];
        apply sextet_inj in H3; auto with sextet;
        do 2 f_equal; apply byte_to_N_inj, split16_inj; [done|lia]
    end.
  - match goal with
    | H1 : Base64.sextet (Byte.to_N a / 4) = _,
      H2 : Base64.sextet (Byte.to_N a mod 4 * 16 + _) = _,
      H3 : Base64.sextet (Byte.to_N b mod 16 * 4 + _) = _,
      H4 : Base64.sextet (Byte.to_N c mod 64) = _,
      H5 : Base64.urlsafe_b64encode x = _ |- _ =>
        destruct (first_pair_inj _ _ _ _ H1 H2) as [-> Hq];
        destruct (second_pair_inj _ _ _ _ Hq H3) as [-> Hq'];
        apply sextet_inj in H4; auto with sextet;
        rewrite (IH _ H5); do 2 f_equal;
        f_equal; apply byte_to_N_inj, split64_inj; done
    end.
Qed.

(** X26: [secrets.token_urlsafe(n)] keeps every bit of the draw: two
    draws that give the same token have the same [n] bytes.  (The loss
    of distinct keys in [generate_license_key] comes from the upper-casing
    alone.) *)
Theorem token_urlsafe_injective rand1 rand2 n :
  token_urlsafe rand1 n = token_urlsafe rand2 n ->
  token_bytes rand1 n = token_bytes rand2 n.
Proof.
  intros H.
  destruct (token_urlsafe_body rand1 n) as (body1 & H1 & Henc1 & _).
  destruct (token_urlsafe_body rand2 n) as (body2 & H2 & Henc2 & _).
  apply b64encode_inj. rewrite Henc1, Henc2. congruence.
Qed.

Lemma token_urlsafe_injective_witness :
  token_bytes zero_draw 16 = token_bytes late_draw 16.
Proof.
  apply (token_urlsafe_injective zero_draw late_draw 16).
  reflexivity.
Defined.

(** ** The space of license keys *)

Lemma position_range c l : 0 <= position c l <= Z.of_nat (length l).
Proof.
  induction l as [|x l IH]; cbn [position length]; [lia|].
  destruct (Ascii.eqb c x); lia.
Qed.

Lemma position_In c l : In c l -> position c l < Z.of_nat (length l).
Proof.
  induction l as [|x l IH]; cbn [position length In]; [tauto|].
  intros Hin. destruct (Ascii.eqb c x) eqn:E; [lia|].
  destruct Hin as [->|Hin]; [by rewrite Ascii.eqb_refl in E|].
  specialize (IH Hin). lia.
Qed.

Lemma position_inj c c' l :
  In c l -> In c' l -> position c l = position c' l -> c = c'.
Proof.
  induction l as [|x l IH]; cbn [position In]; [tauto|].
  intros Hc Hc' Heq.
  destruct (Ascii.eqb c x) eqn:E; destruct (Ascii.eqb c' x) eqn:E'.
  - apply Ascii.eqb_eq in E, E'. congruence.
  - pose proof (position_range c' l). lia.
  - pose proof (position_range c l). lia.
  - apply Ascii.eqb_neq in E, E'.
    destruct Hc as [?|Hc]; [congruence|]. destruct Hc' as [?|Hc']; [congruence|].
    apply IH; [done|done|lia].
Qed.

Lemma base38_range l : forall acc,
  0 <= acc ->
  Forall (fun c => In c upper_alphabet) l ->
  0 <= base38 l acc < (acc + 1) * 38 ^ Z.of_nat (length l).
Proof.
  unfold base38.
  induction l as [|c l IH]; intros acc Hacc Hall; cbn [fold_left length].
  - change (38 ^ Z.of_nat 0) with 1. lia.
  - inversion Hall as [|? ? Hc Hl]; subst.
    pose proof (position_range c upper_alphabet) as H0.
    pose proof (position_In c upper_alphabet Hc) as H1.
    change (Z.of_nat (length upper_alphabet)) with 38 in *.
    specialize (IH (acc * 38 + position c upper_alphabet) ltac:(lia) Hl).
    rewrite Nat2Z.inj_succ, Z.pow_succ_r by lia.
    assert (0 < 38 ^ Z.of_nat (length l)) by (apply Z.pow_pos_nonneg; lia).
    nia.
Qed.

Lemma base38_inj l : forall l' acc acc',
  length l = length l' ->
  Forall (fun c => In c upper_alphabet) l ->
  Forall (fun c => In c upper_alphabet) l' ->
  base38 l acc = base38 l' acc' ->
  acc = acc' /\ l = l'.
Proof.
  unfold base38.
  induction l as [|c l IH]; intros [|c' l'] acc acc' Hlen Hall Hall' Heq;
    cbn [length] in Hlen; try discriminate.
  - by split.
  - cbn [fold_left] in Heq.
    inversion Hall as [|? ? Hc Hl]; inversion Hall' as [|? ? Hc' Hl']; subst.
    destruct (IH l' _ _ ltac:(lia) Hl Hl' Heq) as [Hacc ->].
    pose proof (position_range c upper_alphabet).
    pose proof (position_In c upper_alphabet Hc).
    pose proof (position_range c' upper_alphabet).
    pose proof (position_In c' upper_alphabet Hc').
    change (Z.of_nat (length upper_alphabet)) with 38 in *.
    assert (acc = acc') by lia. subst acc'.
    split; [done|]. f_equal.
    apply (position_inj _ _ upper_alphabet); [done|done|lia].
Qed.

Lemma upper_shift k :
  (k < 26)%N ->
  Str.upper_char (Base64.sextet (k + 26)) = Str.upper_char (Base64.sextet k).
Proof.
  intros Hk.
  assert (H : forallb (fun i => Ascii.eqb
                 (Str.upper_char (Base64.sextet (N.of_nat i + 26)))
                 (Str.upper_char (Base64.sextet (N.of_nat i)))) (seq 0 26) = true)
    by (vm_compute; reflexivity).
  pose proof (proj1 (forallb_forall _ _) H (N.to_nat k)) as Hk'.
  cbv beta in Hk'. rewrite N2Nat.id in Hk'. apply Ascii.eqb_eq, Hk', in_seq. lia.
Qed.

Lemma upper_caseless n m :
  (n < 64)%N -> (m < 64)%N ->
  Str.upper_char (Base64.sextet n) = Str.upper_char (Base64.sextet m) ->
  is_letter (Str.upper_char (Base64.sextet n)) = false ->
  n = m.
Proof.
  intros Hn Hm Heq Hl.
  assert (H : forallb (fun i => forallb (fun j =>
                 implb (Ascii.eqb (Str.upper_char (Base64.sextet (N.of_nat i)))
                                  (Str.upper_char (Base64.sextet (N.of_nat j)))
                        && negb (is_letter (Str.upper_char (Base64.sextet (N.of_nat i)))))
                       (Nat.eqb i j)) (seq 0 64)) (seq 0 64) = true)
    by (vm_compute; reflexivity).
  pose proof (proj1 (forallb_forall _ _) H (N.to_nat n)) as H1.
  specialize (H1 ltac:(apply in_seq; lia)). cbv beta in H1.
  pose proof (proj1 (forallb_forall _ _) H1 (N.to_nat m)) as H2.
  specialize (H2 ltac:(apply in_seq; lia)). cbv beta in H2.
  rewrite !N2Nat.id, Heq, Ascii.eqb_refl in H2. rewrite <- Heq, Hl in H2.
  cbn [negb andb implb] in H2. apply Nat.eqb_eq in H2. lia.
Qed.

Lemma upper_last a b :
  (a < 4)%N -> (b < 4)%N ->
  Str.upper_char (Base64.sextet (a * 16)) = Str.upper_char (Base64.sextet (b * 16)) ->
  a = b.
Proof.
  intros Ha Hb H.
  assert (Ha' : (a = 0 \/ a = 1 \/ a = 2 \/ a = 3)%N) by lia.
  assert (Hb' : (b = 0 \/ b = 1 \/ b = 2 \/ b = 3)%N) by lia.
  destruct Ha' as [->|[->|[->| ->]]], Hb' as [->|[->|[->| ->]]];
    try reflexivity; vm_compute in H; discriminate.
Qed.

Lemma upper_caseless_inj l : forall l',
  Forall (fun c => exists n, (n < 64)%N /\ c = Base64.sextet n) l ->
  Forall (fun c => exists n, (n < 64)%N /\ c = Base64.sextet n) l' ->
  Forall (fun c => is_letter c = false) (Str.upper l) ->
  Str.upper l' = Str.upper l ->
  l' = l.
Proof.
  induction l as [|c l IH]; intros [|c' l'] Hl Hl' Hno Heq;
    cbn [Str.upper map] in *; try discriminate; [reflexivity|].
  injection Heq as Hc Hrest.
  inversion Hl as [|? ? (n & Hn & ->) Hl1]; subst.
  inversion Hl' as [|? ? (m & Hm & ->) Hl1']; subst.
  inversion Hno as [|? ? Hc0 Hno1]; subst.
  rewrite (upper_caseless n m Hn Hm (eq_sym Hc) Hc0).
  f_equal. by apply IH.
Qed.

Lemma key_chars_inj rand rand' :
  key_chars rand' = key_chars rand ->
  generate_license_key rand' = generate_license_key rand.
Proof.
  unfold key_chars. intros H.
  apply (f_equal string_of_list_ascii) in H.
  by rewrite !string_of_list_ascii_of_string in H.
Qed.

Lemma shifted_first rand :
  (Byte.to_N (rand 0%nat) < 104)%N ->
  (Byte.to_N (shifted_draw rand 0%nat) = Byte.to_N (rand 0%nat) + 104)%N.
Proof.
  intros Hlt. cbn [shifted_draw].
  destruct (Byte.of_N (Byte.to_N (rand 0%nat) + 104)) as [b|] eqn:E.
  - cbn [default]. by apply Byte.to_of_N.
  - apply Byte.of_N_None_iff in E. lia.
Qed.

(** The first four characters of an upper-cased token. *)
Lemma upper_token_head (a b c : Byte.byte) rest :
  Str.upper (Str.rstrip "=" (Base64.urlsafe_b64encode (a :: b :: c :: rest)))
  = (Str.upper_char (Base64.sextet (Byte.to_N a / 4))
       :: Str.upper_char (Base64.sextet (Byte.to_N a mod 4 * 16 + Byte.to_N b / 16))
       :: Str.upper_char (Base64.sextet (Byte.to_N b mod 16 * 4 + Byte.to_N c / 64))
       :: Str.upper_char (Base64.sextet (Byte.to_N c mod 64))
       :: Str.upper (Str.rstrip "=" (Base64.urlsafe_b64encode rest)))%N.
Proof.
  cbn [Base64.urlsafe_b64encode].
  do 4 (rewrite rstrip_keep by (apply sextet_upper; auto with sextet)).
  reflexivity.
Qed.

Lemma shifted_key rand :
  (Byte.to_N (rand 0%nat) < 104)%N ->
  token_bytes (shifted_draw rand) 16 <> token_bytes rand 16 /\
  generate_license_key (shifted_draw rand) = generate_license_key rand.
Proof.
  intros Hlt. pose proof (shifted_first rand Hlt) as H0.
  assert (Hbytes : token_bytes (shifted_draw rand) 16
                   = shifted_draw rand 0%nat :: tl (token_bytes rand 16))
    by reflexivity.
  split.
  - rewrite Hbytes. unfold token_bytes. cbn [seq map tl]. intros Heq.
    apply (f_equal (fun l => Byte.to_N (hd Byte.x00 l))) in Heq.
    cbn [hd] in Heq. lia.
  - unfold generate_license_key, token_urlsafe. rewrite Hbytes.
    unfold token_bytes. cbn [seq map tl].
    rewrite !upper_token_head, H0.
    change 104%N with (26 * 4)%N.
    rewrite N.div_add, N.Div0.mod_add by lia.
    rewrite upper_shift; [reflexivity|].
    apply N.Div0.div_lt_upper_bound. lia.
Qed.

(** The two parts of a key that [key_number] reads. *)
Lemma key_chars_parts rand :
  exists body,
    length body = 21%nat /\
    Forall (fun c => exists n, (n < 64)%N /\ c = Base64.sextet n) body /\
    token_urlsafe rand 16
      = (body ++ [Base64.sextet (Byte.to_N (rand 15%nat) mod 4 * 16)])%list /\
    key_chars rand
      = (list_ascii_of_string "LIC-" ++ Str.upper body
           ++ [Str.upper_char (Base64.sextet (Byte.to_N (rand 15%nat) mod 4 * 16))])%list /\
    firstn 21 (skipn 4 (key_chars rand)) = Str.upper body /\
    List.last (key_chars rand) " "%char
      = Str.upper_char (Base64.sextet (Byte.to_N (rand 15%nat) mod 4 * 16)) /\
    Forall (fun c => In c upper_alphabet) (Str.upper body).
Proof.
  destruct (key_chars_form rand) as (body & Hlen & Hall & Htok & Hkey).
  exists body. split_and!; [done|done|done|done| | |].
  - rewrite Hkey. cbn [list_ascii_of_string app skipn].
    apply take_app_length'. unfold Str.upper. by rewrite length_map.
  - rewrite Hkey, app_assoc. apply last_last.
  - unfold Str.upper. apply Forall_map.
    eapply Forall_impl; [exact Hall|]. intros c (n & Hn & ->).
    by apply sextet_upper.
Qed.

(** C8 (as the code has it): every generated key is ["LIC-"] followed by
    22 characters over the 38 upper-case URL-safe characters, the last of
    them one of [A], [Q], [G], [W], and it is a function of the 16 bytes
    of the draw.  The keys are numbered without repetition below
    [4 * 38 ^ 21], so below [2 ^ 113]: they take fewer values than the
    [2 ^ 128] draws.  Nor is every key given by the same number of draws:
    a key with no letter among the 21 characters after the prefix comes
    from one draw only, while a draw whose first byte is below 104 shares
    its key with the draw that has 104 added to that byte. *)
Theorem license_key_space rand :
  firstn 4 (key_chars rand) = list_ascii_of_string "LIC-" /\
  length (key_chars rand) = 26%nat /\
  Forall (fun c => In c upper_alphabet) (skipn 4 (key_chars rand)) /\
  In (List.last (key_chars rand) " "%char) ["A"; "Q"; "G"; "W"]%char /\
  (forall rand', token_bytes rand' 16 = token_bytes rand 16 ->
     generate_license_key rand' = generate_license_key rand) /\
  0 <= key_number (key_chars rand) < 4 * 38 ^ 21 /\
  key_number (key_chars rand) < 2 ^ 113 /\
  (forall rand', key_number (key_chars rand') = key_number (key_chars rand) ->
     generate_license_key rand' = generate_license_key rand) /\
  (Forall (fun c => is_letter c = false) (firstn 21 (skipn 4 (key_chars rand))) ->
   forall rand', generate_license_key rand' = generate_license_key rand ->
     token_bytes rand' 16 = token_bytes rand 16) /\
  ((Byte.to_N (rand 0%nat) < 104)%N ->
   token_bytes (shifted_draw rand) 16 <> token_bytes rand 16 /\
   generate_license_key (shifted_draw rand) = generate_license_key rand).
Proof.
  destruct (key_chars_parts rand)
    as (body & Hlen & Hall & Htok & Hkey & Hfirst & Hlast & Hup).
  pose proof (last_sextet (rand 15%nat)) as Hz.
  assert (Hnum : 0 <= key_number (key_chars rand) < 4 * 38 ^ 21).
  { unfold key_number. rewrite Hfirst, Hlast.
    pose proof (base38_range (Str.upper body) 0 ltac:(lia) Hup) as Hb.
    unfold Str.upper in Hb. rewrite length_map, Hlen in Hb.
    pose proof (position_range (Str.upper_char
      (Base64.sextet (Byte.to_N (rand 15%nat) mod 4 * 16))) ["A"; "Q"; "G"; "W"]%char).
    pose proof (position_In _ _ Hz) as Hp. cbn [length] in Hp.
    change (Z.of_nat 21) with 21 in Hb. unfold Str.upper. lia. }
  split_and!.
  - by rewrite Hkey.
  - rewrite Hkey, !length_app. unfold Str.upper. rewrite length_map, Hlen.
    reflexivity.
  - rewrite Hkey. cbn [list_ascii_of_string app skipn].
    apply Forall_app. split; [done|]. constructor; [|constructor].
    cbn [In] in Hz. destruct Hz as [<-|[<-|[<-|[<-|[]]]]]; vm_compute; auto 40.
  - by rewrite Hlast.
  - intros rand' H. unfold generate_license_key, token_urlsafe. by rewrite H.
  - apply Hnum.
  - apply Hnum.
  - assert (4 * 38 ^ 21 < 2 ^ 113) by (vm_compute; reflexivity). lia.
  - intros rand' Heq. apply key_chars_inj.
    destruct (key_chars_parts rand')
      as (body' & Hlen' & Hall' & Htok' & Hkey' & Hfirst' & Hlast' & Hup').
    pose proof (last_sextet (rand' 15%nat)) as Hz'.
    unfold key_number in Heq. rewrite Hfirst, Hlast, Hfirst', Hlast' in Heq.
    pose proof (position_range (Str.upper_char
      (Base64.sextet (Byte.to_N (rand 15%nat) mod 4 * 16))) ["A"; "Q"; "G"; "W"]%char).
    pose proof (position_In _ _ Hz) as Hp.
    pose proof (position_range (Str.upper_char
      (Base64.sextet (Byte.to_N (rand' 15%nat) mod 4 * 16))) ["A"; "Q"; "G"; "W"]%char).
    pose proof (position_In _ _ Hz') as Hp'.
    cbn [length] in Hp, Hp'.
    destruct (base38_inj (Str.upper body') (Str.upper body) 0 0) as [_ Hbody];
      [unfold Str.upper; rewrite !length_map; congruence|done|done|lia|].
    rewrite Hkey, Hkey', Hbody. do 3 f_equal.
    apply (position_inj _ _ ["A"; "Q"; "G"; "W"]%char); [done|done|lia].
  - intros Hno rand' Heq.
    destruct (key_chars_parts rand')
      as (body' & Hlen' & Hall' & Htok' & Hkey' & _ & _ & _).
    assert (Hchars : key_chars rand' = key_chars rand)
      by (unfold key_chars; by rewrite Heq).
    rewrite Hkey, Hkey' in Hchars.
    apply app_inv_head, app_inj_tail in Hchars as [Hbody Hz0].
    rewrite Hfirst in Hno.
    apply (upper_caseless_inj body body' Hall Hall' Hno) in Hbody.
    apply upper_last in Hz0; [|apply N.mod_upper_bound; lia|apply N.mod_upper_bound; lia].
    assert (Heqtok : token_urlsafe rand' 16 = token_urlsafe rand 16)
      by (rewrite Htok, Htok', Hbody, Hz0; reflexivity).
    destruct (token_urlsafe_body rand 16) as (t & H1 & Henc & _).
    destruct (token_urlsafe_body rand' 16) as (t' & H1' & Henc' & _).
    apply b64encode_inj. rewrite Henc, Henc'. congruence.
  - apply shifted_key.
Qed.

Lemma license_key_space_witness :
  generate_license_key digits_draw = "LIC-000000000000000000000W" /\
  (forall rand',
     generate_license_key rand' = generate_license_key digits_draw ->
     token_bytes rand' 16 = token_bytes digits_draw 16) /\
  token_bytes (shifted_draw zero_draw) 16 <> token_bytes zero_draw 16 /\
  generate_license_key (shifted_draw zero_draw) = generate_license_key zero_draw.
Proof.
  split; [reflexivity|]. split.
  - apply (license_key_space digits_draw).
    vm_compute. repeat constructor.
  - apply (license_key_space zero_draw). vm_compute. reflexivity.
Defined.

(** C8 as stated fails: two different 16-byte draws give the same key,
    so the keys do not take [2^128] different values. *)
Lemma distinct_draws_same_key :
  token_bytes zero_draw 16 <> token_bytes other_draw 16 /\
  generate_license_key zero_draw = generate_license_key other_draw.
Proof. split; [discriminate|reflexivity]. Qed.
